(** * Funding curve and discount factors: a shallow embedding of
    [src/202507_work.py]

    The module has one function, [year_fraction], and two classes,
    [FundingCurveBuilder] and [DiscountFactorService].

    Number model.  Python [float]s and NumPy arrays of [float64] are modelled
    as real numbers extended with the IEEE special values that a division by
    zero produces ([npfloat]): rounding and overflow are abstracted, division
    by zero is not.  Calendar arithmetic is exact integer arithmetic ([Z]).

    Library model.  [datetime.date] (ordering, [toordinal], subtraction),
    [sorted], [numpy.clip], [numpy.searchsorted] and
    [scipy.interpolate.interp1d(kind='linear', fill_value='extrapolate',
    assume_sorted=True)] are modelled from the behaviour of those libraries;
    each definition says which routine it follows. *)

From Stdlib Require Import ZArith Reals Lra Lia String.
From stdpp Require Import base decidable countable gmap list sorting strings.

#[local] Open Scope Z_scope.

(* ------------------------------------------------------------------ *)
(** ** Errors *)

(** The failures of the program are Python [ValueError]s; the payload tells
    the raising site apart: [year_fraction]'s final [else] branch, and two
    checks of the [interp1d] constructor (the number of entries, and a [y]
    that is not an array). *)
Inductive ValueError : Type :=
  | UnsupportedConvention (convention : string)
  | TooFewEntries (minval : Z)
  | NoDimension.

Inductive result (A : Type) : Type :=
  | Ok (a : A)
  | Raise (e : ValueError).
Arguments Ok {A} a.
Arguments Raise {A} e.

#[global] Instance result_bind : MBind result := fun A B k r =>
  match r with
  | Ok a => k a
  | Raise e => Raise e
  end.

(** A list comprehension whose body may raise: the first failure wins. *)
Fixpoint comprehension {A B : Type} (f : A -> result B) (l : list A)
  : result (list B) :=
  match l with
  | [] => Ok []
  | a :: l' => b ← f a; bs ← comprehension f l'; Ok (b :: bs)
  end.

(* ------------------------------------------------------------------ *)
(** ** [datetime.date] *)

Record date : Type := mkdate { year : Z; month : Z; day : Z }.

Definition _is_leap (y : Z) : bool :=
  (y mod 4 =? 0) && (negb (y mod 100 =? 0) || (y mod 400 =? 0)).

(** [_DAYS_IN_MONTH] with the leap-day adjustment of [_days_in_month]. *)
Definition _days_in_month (y m : Z) : Z :=
  if (m =? 2) && _is_leap y then 29
  else match m with
       | 1 => 31 | 2 => 28 | 3 => 31 | 4 => 30 | 5 => 31 | 6 => 30
       | 7 => 31 | 8 => 31 | 9 => 30 | 10 => 31 | 11 => 30 | 12 => 31
       | _ => 0
       end.

(** [_DAYS_BEFORE_MONTH] with the leap-day adjustment of
    [_days_before_month]. *)
Definition _days_before_month (y m : Z) : Z :=
  match m with
  | 1 => 0 | 2 => 31 | 3 => 59 | 4 => 90 | 5 => 120 | 6 => 151
  | 7 => 181 | 8 => 212 | 9 => 243 | 10 => 273 | 11 => 304 | 12 => 334
  | _ => 0
  end + (if (2 <? m) && _is_leap y then 1 else 0).

Definition _days_before_year (y : Z) : Z :=
  let y' := y - 1 in y' * 365 + y' / 4 - y' / 100 + y' / 400.

Definition toordinal (d : date) : Z :=
  _days_before_year (year d) + _days_before_month (year d) (month d) + day d.

(** The values the [date] constructor accepts. *)
Definition valid_date (d : date) : Prop :=
  1 <= year d <= 9999 /\ 1 <= month d <= 12 /\
  1 <= day d <= _days_in_month (year d) (month d).

(** [(end - start).days] *)
Definition days_between (start end_ : date) : Z :=
  toordinal end_ - toordinal start.

(** Dates compare as the tuples [(year, month, day)]. *)
Definition date_le (a b : date) : Prop :=
  year a < year b \/
  (year a = year b /\
   (month a < month b \/ (month a = month b /\ day a <= day b))).

Definition date_lt (a b : date) : Prop :=
  year a < year b \/
  (year a = year b /\
   (month a < month b \/ (month a = month b /\ day a < day b))).

#[global] Instance date_eq_dec : EqDecision date.
Proof. solve_decision. Defined.

#[global] Instance date_le_dec : RelDecision date_le.
Proof. intros a b. unfold date_le. apply _. Defined.

#[global] Instance date_lt_dec : RelDecision date_lt.
Proof. intros a b. unfold date_lt. apply _. Defined.

#[global] Instance date_countable : Countable date.
Proof.
  apply (inj_countable' (fun d => (year d, month d, day d))
                        (fun t => mkdate t.1.1 t.1.2 t.2)).
  intros []. reflexivity.
Defined.

(* ------------------------------------------------------------------ *)
(** ** [year_fraction] *)

#[local] Open Scope R_scope.

Definition year_fraction (start end_ : date) (convention : string)
  : result R :=
  let days := days_between start end_ in
  if String.eqb convention "ACT/365" then
    Ok (IZR days / 365)
  else if String.eqb convention "ACT/360" then
    Ok (IZR days / 360)
  else if String.eqb convention "30/360" then
    let '(d1, d2) := (day start, day end_) in
    let '(m1, m2) := (month start, month end_) in
    let '(y1, y2) := (year start, year end_) in
    let D1 := Z.min d1 30 in
    let D2 := if (d1 <? 30)%Z then d2 else Z.min d2 30 in
    Ok (IZR ((y2 - y1) * 360 + (m2 - m1) * 30 + (D2 - D1)) / 360)
  else
    Raise (UnsupportedConvention convention).

(** The closed set of day-count names the function accepts. *)
Definition supported (convention : string) : Prop :=
  convention = "ACT/365"%string \/ convention = "ACT/360"%string \/
  convention = "30/360"%string.

(* ------------------------------------------------------------------ *)
(** ** Floating-point values *)

(** A [float]: a real number, or one of the IEEE special values.  The
    operations below follow IEEE 754 on the extended reals. *)
Inductive npfloat : Type :=
  | FReal (x : R)
  | FPosInf
  | FNegInf
  | FNaN.

(** Unary minus. *)
Definition fneg (a : npfloat) : npfloat :=
  match a with
  | FReal x => FReal (- x)
  | FPosInf => FNegInf
  | FNegInf => FPosInf
  | FNaN => FNaN
  end.

(** [a + b] *)
Definition fadd (a b : npfloat) : npfloat :=
  match a, b with
  | FNaN, _ | _, FNaN => FNaN
  | FReal x, FReal y => FReal (x + y)
  | FPosInf, FNegInf | FNegInf, FPosInf => FNaN
  | FPosInf, _ | _, FPosInf => FPosInf
  | FNegInf, _ | _, FNegInf => FNegInf
  end.

(** An infinity of the sign of [s] times the real [x]: [inf * 0] is NaN. *)
Definition inf_times (positive : bool) (x : R) : npfloat :=
  if Req_dec_T x 0 then FNaN
  else if Rlt_dec 0 x then (if positive then FPosInf else FNegInf)
  else (if positive then FNegInf else FPosInf).

(** [a * b] *)
Definition fmul (a b : npfloat) : npfloat :=
  match a, b with
  | FNaN, _ | _, FNaN => FNaN
  | FReal x, FReal y => FReal (x * y)
  | FPosInf, FReal y | FReal y, FPosInf => inf_times true y
  | FNegInf, FReal y | FReal y, FNegInf => inf_times false y
  | FPosInf, FPosInf | FNegInf, FNegInf => FPosInf
  | FPosInf, FNegInf | FNegInf, FPosInf => FNegInf
  end.

(** [a / b] on two finite operands, as NumPy divides arrays: a zero divisor
    gives NaN for [0 / 0] and an infinity of the sign of [a] otherwise (with a
    warning, not an exception). *)
Definition np_divide (a b : R) : npfloat :=
  if Req_dec_T b 0 then
    if Req_dec_T a 0 then FNaN
    else if Rlt_dec 0 a then FPosInf else FNegInf
  else FReal (a / b).

(** [np.exp] *)
Definition np_exp (a : npfloat) : npfloat :=
  match a with
  | FReal x => FReal (exp x)
  | FPosInf => FPosInf
  | FNegInf => FReal 0
  | FNaN => FNaN
  end.

(* ------------------------------------------------------------------ *)
(** ** NumPy indexing, [clip] and [searchsorted] *)

(** [a[i]] on a one-dimensional array: a negative index counts from the
    end. *)
Definition np_getitem (a : list R) (i : Z) : R :=
  let n := Z.of_nat (length a) in
  nth (Z.to_nat (if (i <? 0)%Z then (i + n)%Z else i)) a 0.

(** [i.clip(lo, hi)] is [minimum(maximum(i, lo), hi)]: when [lo > hi] the
    result is [hi]. *)
Definition np_clip (i lo hi : Z) : Z := Z.min (Z.max i lo) hi.

(** The binary search of [searchsorted(..., side='left')]. *)
Fixpoint binsearch_left (fuel : nat) (arr : list R) (key : R)
    (min_idx max_idx : Z) : Z :=
  match fuel with
  | O => min_idx
  | S fuel' =>
      if (min_idx <? max_idx)%Z then
        let mid_idx := (min_idx + Z.shiftr (max_idx - min_idx) 1)%Z in
        if Rlt_dec (np_getitem arr mid_idx) key
        then binsearch_left fuel' arr key (mid_idx + 1)%Z max_idx
        else binsearch_left fuel' arr key min_idx mid_idx
      else min_idx
  end.

(** The interval halves at every step, so [length arr + 1] steps suffice. *)
Definition searchsorted (arr : list R) (key : R) : Z :=
  binsearch_left (S (length arr)) arr key 0 (Z.of_nat (length arr)).

(* ------------------------------------------------------------------ *)
(** ** [interp1d(x, y, kind='linear', fill_value='extrapolate',
       assume_sorted=True)] *)

Record interp1d : Type := mk_interp1d { interp_x : list R; interp_y : list R }.

(** The constructor: for [kind='linear'] the minimal number of entries is 1;
    fewer raise [ValueError].  In this program [x] and [y] always have the
    same length. *)
Definition interp1d_new (x y : list R) : result interp1d :=
  let minval := 1%Z in
  if (Z.of_nat (length x) <? minval)%Z then Raise (TooFewEntries minval)
  else Ok (mk_interp1d x y).

(** Evaluation, [_call_linear]: with extrapolation requested no bounds check
    follows, so the segment found by the clipped index is used as it is. *)
Definition interp1d_call (self : interp1d) (x_new : R) : npfloat :=
  let x := interp_x self in
  let y := interp_y self in
  let x_new_indices := searchsorted x x_new in
  let x_new_indices := np_clip x_new_indices 1 (Z.of_nat (length x) - 1) in
  let lo := (x_new_indices - 1)%Z in
  let hi := x_new_indices in
  let x_lo := np_getitem x lo in
  let x_hi := np_getitem x hi in
  let y_lo := np_getitem y lo in
  let y_hi := np_getitem y hi in
  let slope := np_divide (y_hi - y_lo) (x_hi - x_lo) in
  fadd (fmul slope (FReal (x_new - x_lo))) (FReal y_lo).

(* ------------------------------------------------------------------ *)
(** ** [FundingCurveBuilder] *)

#[global] Instance R_inhabited : Inhabited R := populate 0.

(** [sorted(points.keys())] *)
Definition sorted_keys (points : gmap date R) : list date :=
  merge_sort date_le (map_to_list points).*1.

(** [if cs_points:] a mapping is true when it is present and non-empty. *)
Definition truthy (cs_points : option (gmap date R)) : bool :=
  match cs_points with
  | Some cs => negb (bool_decide (cs = ∅))
  | None => false
  end.

Module FundingCurveBuilder.

(** The attributes of an instance; [None] is Python's [None], and for
    [cs_dates] the attribute that was never assigned. *)
Record t : Type := mk {
  valuation_date : date;
  dc : string;
  ois_dates : list date;
  ois_tenors : list R;
  ois_rates : list R;
  ois_interp : option interp1d;
  cs_interp : option interp1d;
  cs_dates : option (list date);
  cs_tenors : option (list R);
  cs_rates : option (list R)
}.

(** The rates are read back with the keys of the mapping itself, so the
    subscription [points[d]] cannot miss. *)
Definition __init__ (ois_points : gmap date R) (valuation_date : date)
    (dc : string) (cs_points : option (gmap date R)) : result t :=
  let ois_dates := sorted_keys ois_points in
  ois_tenors ←
    comprehension (fun d => year_fraction valuation_date d dc) ois_dates;
  let ois_rates := map (fun d => ois_points !!! d) ois_dates in
  match cs_points with
  | Some cs =>
      if truthy cs_points then
        let cs_dates := sorted_keys cs in
        cs_tenors ←
          comprehension (fun d => year_fraction valuation_date d dc) cs_dates;
        let cs_rates := map (fun d => cs !!! d) cs_dates in
        Ok (mk valuation_date dc ois_dates ois_tenors ois_rates None None
               (Some cs_dates) (Some cs_tenors) (Some cs_rates))
      else
        Ok (mk valuation_date dc ois_dates ois_tenors ois_rates None None
               None None None)
  | None =>
      Ok (mk valuation_date dc ois_dates ois_tenors ois_rates None None
             None None None)
  end.

(** The closure [total_rate], over the two interpolants [build] has just
    stored. *)
Definition total_rate (ois_interp : interp1d) (cs_interp : option interp1d)
    (t : R) : npfloat :=
  let base := interp1d_call ois_interp t in
  let cs := match cs_interp with
            | Some ci => interp1d_call ci t
            | None => FReal 0
            end in
  fadd base cs.

(** [build] returns the instance as it has left it together with the
    composed function.  An instance whose [cs_tenors] is an array has an
    array [cs_rates] too; were it [None], the constructor of the
    interpolant would raise. *)
Definition build (self : t) : result (t * (R -> npfloat)) :=
  oi ← interp1d_new (ois_tenors self) (ois_rates self);
  ci ← match cs_tenors self with
       | Some ct =>
           match cs_rates self with
           | Some cr => ci ← interp1d_new ct cr; Ok (Some ci)
           | None => Raise NoDimension
           end
       | None => Ok (cs_interp self)
       end;
  let self' := mk (valuation_date self) (dc self) (ois_dates self)
                  (ois_tenors self) (ois_rates self) (Some oi) ci
                  (cs_dates self) (cs_tenors self) (cs_rates self) in
  Ok (self', total_rate oi ci).

End FundingCurveBuilder.

(* ------------------------------------------------------------------ *)
(** ** [DiscountFactorService] *)

Module DiscountFactorService.

Record t : Type := __init__ {
  interp : R -> npfloat;
  valuation_date : date;
  dc : string
}.

Definition get_df (self : t) (target_date : date) : result npfloat :=
  t ← year_fraction (valuation_date self) target_date (dc self);
  let r := interp self t in
  Ok (np_exp (fmul (fneg r) (FReal t))).

End DiscountFactorService.

(* ------------------------------------------------------------------ *)
(** ** Auxiliary definitions *)

(** The leap day of a year, as a number of days. *)
Definition leap_day (y : Z) : Z := if _is_leap y then 1 else 0.

(** The numerator of the 30/360 branch. *)
Definition days_30_360 (s e : date) : Z :=
  ((year e - year s) * 360 + (month e - month s) * 30
   + ((if (day s <? 30)%Z then day e else Z.min (day e) 30)
      - Z.min (day s) 30))%Z.

(** The integer numerator and the constant divisor of every supported
    convention. *)
Definition numerator (c : string) (s e : date) : Z :=
  if String.eqb c "30/360" then days_30_360 s e else days_between s e.

Definition divisor (c : string) : R :=
  if String.eqb c "ACT/365" then 365 else 360.

(** The year fraction of a supported convention, as a total function. *)
Definition tenor (c : string) (v d : date) : R :=
  IZR (numerator c v d) / divisor c.

(** The arrays the constructor derives from one mapping. *)
Definition axis_of (points : gmap date R) (v : date) (c : string) : list R :=
  map (tenor c v) (sorted_keys points).

Definition rates_of (points : gmap date R) : list R :=
  map (fun d => points !!! d) (sorted_keys points).

(** The two conventions that count actual days. *)
Definition actual_convention (c : string) : Prop :=
  c = "ACT/365"%string \/ c = "ACT/360"%string.

(** The interpolant the builder would store for a mapping. *)
Definition curve_of (points : gmap date R) (v : date) (c : string)
  : interp1d :=
  mk_interp1d (axis_of points v c) (rates_of points).

(* ================================================================== *)
(** * Properties *)

Import FundingCurveBuilder.

(* ------------------------------------------------------------------ *)
(** ** Day-count conventions *)

Lemma year_fraction_30_360 (s e : date) :
  year_fraction s e "30/360" = Ok (IZR (days_30_360 s e) / 360).
Proof. reflexivity. Qed.

Lemma year_fraction_supported (s e : date) (c : string) :
  supported c ->
  year_fraction s e c = Ok (IZR (numerator c s e) / divisor c).
Proof. intros [-> | [-> | ->]]; reflexivity. Qed.

Lemma divisor_pos (c : string) : 0 < divisor c.
Proof. unfold divisor. destruct (String.eqb c "ACT/365"); lra. Qed.

Lemma year_fraction_unsupported (s e : date) (c : string) :
  ~ supported c -> year_fraction s e c = Raise (UnsupportedConvention c).
Proof.
  intros Hc. unfold year_fraction.
  destruct (String.eqb_spec c "ACT/365") as [-> | _].
  { exfalso. apply Hc. left. reflexivity. }
  destruct (String.eqb_spec c "ACT/360") as [-> | _].
  { exfalso. apply Hc. right. left. reflexivity. }
  destruct (String.eqb_spec c "30/360") as [-> | _].
  { exfalso. apply Hc. right. right. reflexivity. }
  reflexivity.
Qed.

(** C6: [year_fraction] raises the unsupported-convention error exactly when
    the convention is none of ACT/365, ACT/360, 30/360, and returns a value
    for each of those three. *)
Theorem year_fraction_raises_iff_unsupported (s e : date) (c : string) :
  ((exists err, year_fraction s e c = Raise err) <-> ~ supported c) /\
  (~ supported c -> year_fraction s e c = Raise (UnsupportedConvention c)) /\
  (supported c -> exists t, year_fraction s e c = Ok t).
Proof.
  split; [split | split].
  - intros [err Herr] Hc.
    rewrite (year_fraction_supported s e c Hc) in Herr. discriminate.
  - intros Hc. eexists. apply year_fraction_unsupported, Hc.
  - apply year_fraction_unsupported.
  - intros Hc. eexists. apply year_fraction_supported, Hc.
Qed.

Lemma year_fraction_raises_iff_unsupported_witness :
  (exists err, year_fraction (mkdate 2024 1 1) (mkdate 2025 1 1) "ACT/364"
               = Raise err) /\
  (exists t, year_fraction (mkdate 2024 1 1) (mkdate 2025 1 1) "ACT/360"
               = Ok t).
Proof.
  split.
  - apply (proj1 (year_fraction_raises_iff_unsupported
                    (mkdate 2024 1 1) (mkdate 2025 1 1) "ACT/364")).
    intros [H | [H | H]]; discriminate H.
  - apply (proj2 (proj2 (year_fraction_raises_iff_unsupported
                    (mkdate 2024 1 1) (mkdate 2025 1 1) "ACT/360"))).
    right. left. reflexivity.
Defined.

Lemma numerator_same_date (c : string) (d : date) : numerator c d d = 0%Z.
Proof.
  unfold numerator, days_30_360, days_between.
  destruct (String.eqb c "30/360"); [| lia].
  destruct (Z.ltb_spec (day d) 30); lia.
Qed.

(** C7: from a date to itself the year fraction is 0 under each supported
    convention, the 31st of a month under 30/360 included. *)
Theorem year_fraction_same_date (d : date) (c : string) :
  supported c -> year_fraction d d c = Ok 0.
Proof.
  intros Hc. rewrite (year_fraction_supported d d c Hc).
  rewrite numerator_same_date. f_equal. unfold Rdiv. apply Rmult_0_l.
Qed.

Lemma year_fraction_same_date_witness :
  year_fraction (mkdate 2024 1 31) (mkdate 2024 1 31) "30/360" = Ok 0.
Proof.
  apply (year_fraction_same_date (mkdate 2024 1 31) "30/360").
  right. right. reflexivity.
Defined.

(* ------------------------------------------------------------------ *)
(** ** The calendar *)

Section Calendar.

#[local] Open Scope Z_scope.

Lemma days_before_year_step (y : Z) :
  _days_before_year (y + 1) = _days_before_year y + 365 + leap_day y.
Proof.
  unfold _days_before_year, leap_day, _is_leap.
  replace (y + 1 - 1) with y by lia.
  destruct (Z.eqb_spec (y mod 4) 0), (Z.eqb_spec (y mod 100) 0),
    (Z.eqb_spec (y mod 400) 0); simpl;
    Z.to_euclidean_division_equations; lia.
Qed.

Lemma days_before_year_mono (y y' : Z) :
  y <= y' -> _days_before_year y <= _days_before_year y'.
Proof.
  unfold _days_before_year. intros H.
  Z.to_euclidean_division_equations; lia.
Qed.

Lemma day_of_year_bounds (d : date) :
  valid_date d ->
  1 <= _days_before_month (year d) (month d) + day d <= 365 + leap_day (year d).
Proof.
  destruct d as [y m d]. unfold valid_date, leap_day. simpl.
  intros (_ & Hm & Hd).
  unfold _days_in_month, _days_before_month in *.
  assert (m = 1 \/ m = 2 \/ m = 3 \/ m = 4 \/ m = 5 \/ m = 6 \/ m = 7 \/
          m = 8 \/ m = 9 \/ m = 10 \/ m = 11 \/ m = 12) as Hcases by lia.
  destruct (_is_leap y);
    repeat (destruct Hcases as [-> | Hcases]); try subst m; simpl in *; lia.
Qed.

Lemma day_of_year_mono (y m d m' d' : Z) :
  valid_date (mkdate y m d) -> valid_date (mkdate y m' d') ->
  m < m' \/ (m = m' /\ d < d') ->
  _days_before_month y m + d < _days_before_month y m' + d'.
Proof.
  unfold valid_date. simpl. intros (_ & Hm & Hd) (_ & Hm' & Hd') Hlt.
  unfold _days_in_month, _days_before_month in *.
  assert (m = 1 \/ m = 2 \/ m = 3 \/ m = 4 \/ m = 5 \/ m = 6 \/ m = 7 \/
          m = 8 \/ m = 9 \/ m = 10 \/ m = 11 \/ m = 12) as Hcases by lia.
  assert (m' = 1 \/ m' = 2 \/ m' = 3 \/ m' = 4 \/ m' = 5 \/ m' = 6 \/ m' = 7 \/
          m' = 8 \/ m' = 9 \/ m' = 10 \/ m' = 11 \/ m' = 12) as Hcases' by lia.
  destruct (_is_leap y);
    repeat (destruct Hcases as [-> | Hcases]); try subst m;
    repeat (destruct Hcases' as [-> | Hcases']); try subst m';
    simpl in *; lia.
Qed.

Lemma toordinal_lt (a b : date) :
  valid_date a -> valid_date b -> date_lt a b -> toordinal a < toordinal b.
Proof.
  intros Ha Hb Hlt. unfold toordinal.
  destruct Hlt as [Hy | [Hy Hmd]].
  - pose proof (day_of_year_bounds a Ha) as Hda.
    pose proof (day_of_year_bounds b Hb) as Hdb.
    pose proof (days_before_year_step (year a)) as Hstep.
    pose proof (days_before_year_mono (year a + 1) (year b)) as Hmono.
    lia.
  - destruct a as [y m d], b as [y' m' d']. simpl in *. subst y'.
    pose proof (day_of_year_mono y m d m' d' Ha Hb Hmd). lia.
Qed.

End Calendar.

(* ------------------------------------------------------------------ *)
(** ** The order of dates and [sorted] *)

Section DateOrder.

#[local] Open Scope Z_scope.

#[global] Instance date_le_total : Total date_le.
Proof. intros a b. unfold date_le. lia. Qed.

#[global] Instance date_le_trans : Transitive date_le.
Proof. intros a b c. unfold date_le. lia. Qed.

#[global] Instance date_le_antisymm : AntiSymm (=) date_le.
Proof.
  intros [y m d] [y' m' d']. unfold date_le. simpl. intros H1 H2.
  f_equal; lia.
Qed.

Lemma date_le_lt (a b : date) : date_le a b -> a <> b -> date_lt a b.
Proof.
  destruct a as [y m d], b as [y' m' d']. unfold date_le, date_lt. simpl.
  intros H Hne.
  assert (~ (y = y' /\ m = m' /\ d = d')) as Hne'.
  { intros (-> & -> & ->). apply Hne. reflexivity. }
  lia.
Qed.

Lemma date_lt_le (a b : date) : date_lt a b -> date_le a b.
Proof. unfold date_le, date_lt. lia. Qed.

Lemma date_lt_irrefl (a : date) : ~ date_lt a a.
Proof. unfold date_lt. lia. Qed.

Lemma sorted_keys_sorted (points : gmap date R) :
  StronglySorted date_le (sorted_keys points).
Proof. apply StronglySorted_merge_sort; apply _. Qed.

Lemma sorted_keys_perm (points : gmap date R) :
  sorted_keys points ≡ₚ (map_to_list points).*1.
Proof. apply merge_sort_Permutation. Qed.

Lemma sorted_keys_NoDup (points : gmap date R) : NoDup (sorted_keys points).
Proof. rewrite sorted_keys_perm. apply NoDup_fst_map_to_list. Qed.

Lemma sorted_keys_elem_of (points : gmap date R) (d : date) :
  d ∈ sorted_keys points <-> is_Some (points !! d).
Proof.
  rewrite sorted_keys_perm, list_elem_of_fmap. split.
  - intros [[d' r] [-> Hin]]. apply elem_of_map_to_list in Hin. eauto.
  - intros [r Hr]. exists (d, r). split; [reflexivity |].
    apply elem_of_map_to_list, Hr.
Qed.

(** Distinct keys make the sorted key list strictly increasing. *)
Lemma sorted_keys_strict (points : gmap date R) :
  StronglySorted date_lt (sorted_keys points).
Proof.
  pose proof (sorted_keys_sorted points) as Hs.
  pose proof (sorted_keys_NoDup points) as Hn.
  induction Hs as [| a l Hs IH Hall]; [constructor |].
  apply NoDup_cons in Hn as [Hnotin Hn].
  constructor; [apply IH, Hn |].
  rewrite Forall_forall in Hall |- *. intros b Hb.
  apply date_le_lt; [apply Hall, Hb |].
  intros ->. apply Hnotin, Hb.
Qed.

Lemma sorted_keys_empty : sorted_keys ∅ = [].
Proof. unfold sorted_keys. rewrite map_to_list_empty. reflexivity. Qed.

Lemma sorted_keys_singleton (d : date) (r : R) : sorted_keys {[ d := r ]} = [d].
Proof. unfold sorted_keys. rewrite map_to_list_singleton. reflexivity. Qed.

Lemma sorted_keys_pair (d0 d1 : date) (r0 r1 : R) :
  date_lt d0 d1 ->
  sorted_keys (<[ d0 := r0 ]> {[ d1 := r1 ]}) = [d0; d1].
Proof.
  intros Hlt.
  assert (d0 <> d1) as Hne.
  { intros ->. exact (date_lt_irrefl _ Hlt). }
  apply (StronglySorted_unique date_le).
  - apply sorted_keys_sorted.
  - apply SSorted_cons;
      [apply SSorted_cons; [apply SSorted_nil | apply Forall_nil_2] |].
    apply Forall_cons_2; [apply date_lt_le, Hlt | apply Forall_nil_2].
  - rewrite sorted_keys_perm, map_to_list_insert.
    + rewrite map_to_list_singleton. reflexivity.
    + apply lookup_singleton_ne. congruence.
Qed.

Lemma sorted_keys_nonempty (points : gmap date R) :
  points <> ∅ -> sorted_keys points <> [].
Proof.
  intros Hne Hnil. apply Hne. apply map_to_list_empty_iff.
  pose proof (sorted_keys_perm points) as Hp. rewrite Hnil in Hp.
  symmetry in Hp. apply Permutation_nil_r in Hp.
  apply fmap_nil_inv in Hp. exact Hp.
Qed.

End DateOrder.

(* ------------------------------------------------------------------ *)
(** ** The year-fraction axis *)

Lemma comprehension_tenor (v : date) (c : string) (l : list date) :
  supported c ->
  comprehension (fun d => year_fraction v d c) l = Ok (map (tenor c v) l).
Proof.
  intros Hc. induction l as [| d l IH]; [reflexivity |].
  simpl. rewrite (year_fraction_supported v d c Hc), IH. reflexivity.
Qed.

Lemma days_in_month_le_31 (y m : Z) : (_days_in_month y m <= 31)%Z.
Proof.
  unfold _days_in_month. destruct (_ && _); [lia |].
  destruct m as [| p | p]; try lia.
  do 4 (destruct p as [p | p |]; try lia).
Qed.

Lemma numerator_le (c : string) (v a b : date) :
  valid_date a -> valid_date b -> date_lt a b ->
  (numerator c v a <= numerator c v b)%Z.
Proof.
  intros Ha Hb Hlt. unfold numerator.
  destruct (String.eqb c "30/360").
  - unfold days_30_360.
    destruct Ha as (_ & Hma & Hda), Hb as (_ & Hmb & Hdb).
    pose proof (days_in_month_le_31 (year a) (month a)) as Hda'.
    unfold date_lt in Hlt.
    destruct (Z.ltb_spec (day v) 30); lia.
  - unfold days_between.
    pose proof (toordinal_lt a b Ha Hb Hlt). lia.
Qed.

Lemma numerator_lt_act (c : string) (v a b : date) :
  c <> "30/360"%string ->
  valid_date a -> valid_date b -> date_lt a b ->
  (numerator c v a < numerator c v b)%Z.
Proof.
  intros Hc Ha Hb Hlt. unfold numerator.
  destruct (String.eqb_spec c "30/360") as [-> | _]; [congruence |].
  unfold days_between. pose proof (toordinal_lt a b Ha Hb Hlt). lia.
Qed.

Lemma tenor_le (c : string) (v a b : date) :
  valid_date a -> valid_date b -> date_lt a b -> tenor c v a <= tenor c v b.
Proof.
  intros Ha Hb Hlt. unfold tenor.
  pose proof (divisor_pos c) as Hpos.
  apply Rmult_le_compat_r; [left; apply Rinv_0_lt_compat, Hpos |].
  apply IZR_le, numerator_le; assumption.
Qed.

Lemma tenor_lt_act (c : string) (v a b : date) :
  c <> "30/360"%string ->
  valid_date a -> valid_date b -> date_lt a b -> tenor c v a < tenor c v b.
Proof.
  intros Hc Ha Hb Hlt. unfold tenor.
  pose proof (divisor_pos c) as Hpos.
  apply Rmult_lt_compat_r; [apply Rinv_0_lt_compat, Hpos |].
  apply IZR_lt, numerator_lt_act; assumption.
Qed.

(** A relation that [f] carries from strictly increasing valid dates to the
    reals makes the image of a strictly sorted list sorted. *)
Lemma axis_sorted (rel : R -> R -> Prop) (f : date -> R) (l : list date) :
  (forall a b, valid_date a -> valid_date b -> date_lt a b -> rel (f a) (f b)) ->
  Forall valid_date l -> StronglySorted date_lt l ->
  StronglySorted rel (map f l).
Proof.
  intros Hf Hv Hs. induction Hs as [| a l Hs IH Hall]; [constructor |].
  apply Forall_cons in Hv as [Ha Hv]. simpl.
  constructor; [apply IH, Hv |].
  apply Forall_fmap. rewrite Forall_forall in Hall, Hv |- *.
  intros b Hb. apply Hf; auto.
Qed.

(* ------------------------------------------------------------------ *)
(** ** The builder *)


Lemma truthy_true_inv (cs : option (gmap date R)) :
  truthy cs = true -> exists m, cs = Some m /\ m <> ∅.
Proof.
  destruct cs as [m |]; [| discriminate]. simpl. intros H. exists m.
  split; [reflexivity |].
  apply negb_true_iff, bool_decide_eq_false in H. exact H.
Qed.

Lemma init_without_spread (points : gmap date R) (v : date) (c : string)
    (cs : option (gmap date R)) :
  supported c -> truthy cs = false ->
  __init__ points v c cs =
  Ok (mk v c (sorted_keys points) (axis_of points v c) (rates_of points)
         None None None None None).
Proof.
  intros Hc Hcs. unfold __init__.
  rewrite (comprehension_tenor v c _ Hc). simpl.
  destruct cs as [m |]; [| reflexivity]. rewrite Hcs. reflexivity.
Qed.

Lemma init_with_spread (points m : gmap date R) (v : date) (c : string) :
  supported c -> m <> ∅ ->
  __init__ points v c (Some m) =
  Ok (mk v c (sorted_keys points) (axis_of points v c) (rates_of points)
         None None (Some (sorted_keys m)) (Some (axis_of m v c))
         (Some (rates_of m))).
Proof.
  intros Hc Hm. unfold __init__.
  rewrite (comprehension_tenor v c _ Hc). simpl.
  rewrite bool_decide_eq_false_2 by exact Hm. simpl.
  rewrite (comprehension_tenor v c _ Hc). reflexivity.
Qed.

(** Whatever the convention, the constructor does not tell an empty spread
    mapping from an absent one. *)
Lemma init_empty_spread (points : gmap date R) (v : date) (c : string) :
  __init__ points v c (Some ∅) = __init__ points v c None.
Proof.
  unfold __init__.
  destruct (comprehension _ (sorted_keys points)); reflexivity.
Qed.

Lemma interp1d_new_cons (a : R) (x y : list R) :
  interp1d_new (a :: x) y = Ok (mk_interp1d (a :: x) y).
Proof.
  unfold interp1d_new.
  destruct (Z.ltb_spec (Z.of_nat (length (a :: x))) 1) as [H |]; [| reflexivity].
  simpl length in H. lia.
Qed.

Lemma interp1d_new_nonempty (x y : list R) :
  x <> [] -> interp1d_new x y = Ok (mk_interp1d x y).
Proof. destruct x; [congruence | intros _; apply interp1d_new_cons]. Qed.

Lemma axis_of_nonempty (points : gmap date R) (v : date) (c : string) :
  points <> ∅ -> axis_of points v c <> [].
Proof.
  intros Hne Hnil. apply (sorted_keys_nonempty points Hne).
  unfold axis_of in Hnil. destruct (sorted_keys points); [reflexivity |].
  discriminate Hnil.
Qed.

Lemma fadd_0_r (a : npfloat) : fadd a (FReal 0) = a.
Proof. destruct a; simpl; try reflexivity. f_equal. lra. Qed.

Lemma total_rate_without_spread (oi : interp1d) (t : R) :
  total_rate oi None t = interp1d_call oi t.
Proof. unfold total_rate. apply fadd_0_r. Qed.


Lemma build_without_spread (self : FundingCurveBuilder.t) :
  ois_tenors self <> [] -> cs_tenors self = None ->
  build self =
  let oi := mk_interp1d (ois_tenors self) (ois_rates self) in
  Ok (mk (FundingCurveBuilder.valuation_date self) (FundingCurveBuilder.dc self)
         (ois_dates self) (ois_tenors self) (ois_rates self)
         (Some oi) (cs_interp self)
         (cs_dates self) (cs_tenors self) (cs_rates self),
      total_rate oi (cs_interp self)).
Proof.
  intros Hne Hcs. unfold build.
  rewrite (interp1d_new_nonempty _ _ Hne), Hcs. reflexivity.
Qed.

Lemma build_with_spread (self : FundingCurveBuilder.t) (ct cr : list R) :
  ois_tenors self <> [] ->
  cs_tenors self = Some ct -> cs_rates self = Some cr -> ct <> [] ->
  build self =
  let oi := mk_interp1d (ois_tenors self) (ois_rates self) in
  let ci := mk_interp1d ct cr in
  Ok (mk (FundingCurveBuilder.valuation_date self) (FundingCurveBuilder.dc self)
         (ois_dates self) (ois_tenors self) (ois_rates self)
         (Some oi) (Some ci)
         (cs_dates self) (cs_tenors self) (cs_rates self),
      total_rate oi (Some ci)).
Proof.
  intros Hne Hct Hcr Hcne. unfold build.
  rewrite (interp1d_new_nonempty _ _ Hne), Hct, Hcr.
  simpl. rewrite (interp1d_new_nonempty _ _ Hcne). reflexivity.
Qed.


(** C3: with an empty base mapping the constructor of the builder stores
    empty arrays, and [build] raises at its first statement, the construction
    of the base interpolant: nothing has been interpolated, and the spread
    mapping plays no part. *)
Theorem build_empty_base_raises (v : date) (c : string)
    (cs : option (gmap date R)) :
  supported c ->
  exists self,
    __init__ ∅ v c cs = Ok self /\
    ois_tenors self = [] /\ ois_rates self = [] /\
    ois_interp self = None /\ cs_interp self = None /\
    interp1d_new (ois_tenors self) (ois_rates self) = Raise (TooFewEntries 1) /\
    build self = Raise (TooFewEntries 1).
Proof.
  intros Hc.
  assert (axis_of ∅ v c = []) as Hax.
  { unfold axis_of. rewrite sorted_keys_empty. reflexivity. }
  assert (rates_of ∅ = []) as Hra.
  { unfold rates_of. rewrite sorted_keys_empty. reflexivity. }
  destruct (truthy cs) eqn:Htr.
  - destruct (truthy_true_inv cs Htr) as (m & -> & Hm).
    eexists. split; [apply (init_with_spread ∅ m v c Hc Hm) |].
    unfold build. simpl. rewrite Hax, Hra. repeat split; reflexivity.
  - eexists. split; [apply (init_without_spread ∅ v c cs Hc Htr) |].
    unfold build. simpl. rewrite Hax, Hra. repeat split; reflexivity.
Qed.

Lemma build_empty_base_raises_witness :
  exists self,
    __init__ ∅ (mkdate 2024 1 1) "ACT/365" None = Ok self /\
    build self = Raise (TooFewEntries 1).
Proof.
  destruct (build_empty_base_raises (mkdate 2024 1 1) "ACT/365" None)
    as (self & Hinit & _ & _ & _ & _ & _ & Hbuild).
  - left. reflexivity.
  - exists self. split; assumption.
Defined.

(** C10: an empty spread mapping is handled as an absent one.  The
    constructor returns the same instance for both; for a non-empty base
    mapping [build] then succeeds, stores no spread interpolant, and the
    composed function is the base interpolant. *)
Theorem empty_spread_is_no_spread (points : gmap date R) (v : date)
    (c : string) :
  __init__ points v c (Some ∅) = __init__ points v c None /\
  (supported c -> points <> ∅ ->
   exists self self' f base,
     __init__ points v c (Some ∅) = Ok self /\
     cs_tenors self = None /\ cs_rates self = None /\
     build self = Ok (self', f) /\
     ois_interp self' = Some base /\
     cs_interp self' = None /\
     forall t, f t = interp1d_call base t).
Proof.
  split; [apply init_empty_spread |].
  intros Hc Hp.
  assert (truthy (Some (∅ : gmap date R)) = false) as Htr.
  { simpl. rewrite bool_decide_eq_true_2 by reflexivity. reflexivity. }
  eexists _, _, _, _.
  split; [apply (init_without_spread points v c _ Hc Htr) |].
  split; [reflexivity |]. split; [reflexivity |].
  split; [apply build_without_spread;
          [apply (axis_of_nonempty points v c Hp) | reflexivity] |].
  split; [reflexivity |]. split; [reflexivity |].
  intros t. apply total_rate_without_spread.
Qed.

Lemma empty_spread_is_no_spread_witness :
  let v := mkdate 2024 1 1 in
  let points : gmap date R := {[ mkdate 2025 1 1 := 3 / 100 ]} in
  exists self self' f base,
    __init__ points v "ACT/365" (Some ∅) = Ok self /\
    build self = Ok (self', f) /\
    ois_interp self' = Some base /\
    cs_interp self' = None /\
    forall t, f t = interp1d_call base t.
Proof.
  intros v points.
  destruct (proj2 (empty_spread_is_no_spread points v "ACT/365"))
    as (self & self' & f & base & Hinit & _ & _ & Hbuild & Hoi & Hci & Hf).
  - left. reflexivity.
  - apply insert_non_empty.
  - exists self, self', f, base. repeat split; assumption.
Defined.

(* ------------------------------------------------------------------ *)
(** ** The axis after sorting *)

Lemma init_ois_arrays (points : gmap date R) (v : date) (c : string)
    (cs : option (gmap date R)) (self : FundingCurveBuilder.t) :
  supported c -> __init__ points v c cs = Ok self ->
  ois_dates self = sorted_keys points /\
  ois_tenors self = axis_of points v c /\
  ois_rates self = rates_of points.
Proof.
  intros Hc Hinit. destruct (truthy cs) eqn:Htr.
  - destruct (truthy_true_inv cs Htr) as (m & -> & Hm).
    rewrite (init_with_spread points m v c Hc Hm) in Hinit.
    injection Hinit as <-. repeat split; reflexivity.
  - rewrite (init_without_spread points v c cs Hc Htr) in Hinit.
    injection Hinit as <-. repeat split; reflexivity.
Qed.

Lemma sorted_keys_valid (points : gmap date R) :
  (forall d, is_Some (points !! d) -> valid_date d) ->
  Forall valid_date (sorted_keys points).
Proof.
  intros Hv. apply Forall_forall. intros d Hd.
  apply Hv, sorted_keys_elem_of, Hd.
Qed.

(** C9 (amended): the dates are sorted strictly ascending, and the axis
    computed from them is non-decreasing under every supported convention; it
    is strictly increasing under ACT/365 and ACT/360.  (Under 30/360 two
    distinct dates can share a year fraction.) *)
Theorem axis_monotone (points : gmap date R) (v : date) (c : string)
    (cs : option (gmap date R)) (self : FundingCurveBuilder.t) :
  supported c ->
  (forall d, is_Some (points !! d) -> valid_date d) ->
  __init__ points v c cs = Ok self ->
  StronglySorted date_lt (ois_dates self) /\
  StronglySorted Rle (ois_tenors self) /\
  (c <> "30/360"%string -> StronglySorted Rlt (ois_tenors self)).
Proof.
  intros Hc Hv Hinit.
  destruct (init_ois_arrays points v c cs self Hc Hinit) as (-> & -> & _).
  pose proof (sorted_keys_strict points) as Hs.
  pose proof (sorted_keys_valid points Hv) as Hval.
  split; [exact Hs |]. split.
  - apply axis_sorted; [| exact Hval | exact Hs].
    intros a b. apply tenor_le.
  - intros Hact. apply axis_sorted; [| exact Hval | exact Hs].
    intros a b. apply tenor_lt_act, Hact.
Qed.

Lemma valid_date_dec (y m d : Z) :
  (1 <=? y)%Z && (y <=? 9999)%Z && (1 <=? m)%Z && (m <=? 12)%Z &&
  (1 <=? d)%Z && (d <=? _days_in_month y m)%Z = true ->
  valid_date (mkdate y m d).
Proof. unfold valid_date. simpl. intros H. lia. Qed.

Lemma pair_lookup_inv (d0 d1 d : date) (r0 r1 : R) :
  is_Some ((<[ d0 := r0 ]> {[ d1 := r1 ]} : gmap date R) !! d) ->
  d = d0 \/ d = d1.
Proof.
  intros [r Hr]. apply lookup_insert_Some in Hr as [[-> _] | [_ Hr]]; [auto |].
  apply lookup_singleton_Some in Hr as [-> _]. auto.
Qed.

Lemma axis_monotone_witness :
  let v := mkdate 2024 1 1 in
  let points : gmap date R :=
    <[ mkdate 2025 1 1 := 3 / 100 ]> {[ mkdate 2026 1 1 := 35 / 1000 ]} in
  exists self,
    __init__ points v "ACT/365" None = Ok self /\
    StronglySorted Rlt (ois_tenors self).
Proof.
  intros v points.
  assert (supported "ACT/365") as Hc by (left; reflexivity).
  eexists. split; [apply (init_without_spread points v _ None Hc eq_refl) |].
  refine (proj2 (proj2 (axis_monotone points v "ACT/365" None _ Hc _
                          (init_without_spread points v _ None Hc eq_refl)))
                _).
  - intros d Hd. apply pair_lookup_inv in Hd as [-> | ->];
      apply valid_date_dec; reflexivity.
  - discriminate.
Defined.

(** C9, counterexample: valued on 2024-01-01 under 30/360, the distinct dates
    2024-01-31 and 2024-02-01 both lie 30/360 of a year away, so the axis is
    not strictly increasing. *)
Lemma axis_30_360_tie :
  let v := mkdate 2024 1 1 in
  let points : gmap date R :=
    <[ mkdate 2024 1 31 := 3 / 100 ]> {[ mkdate 2024 2 1 := 35 / 1000 ]} in
  mkdate 2024 1 31 <> mkdate 2024 2 1 /\
  valid_date (mkdate 2024 1 31) /\ valid_date (mkdate 2024 2 1) /\
  exists self,
    __init__ points v "30/360" None = Ok self /\
    ois_dates self = [mkdate 2024 1 31; mkdate 2024 2 1] /\
    ois_tenors self = [IZR 30 / 360; IZR 30 / 360] /\
    ~ StronglySorted Rlt (ois_tenors self).
Proof.
  intros v points.
  assert (supported "30/360") as Hc by (right; right; reflexivity).
  split; [discriminate |].
  split; [apply valid_date_dec; reflexivity |].
  split; [apply valid_date_dec; reflexivity |].
  assert (sorted_keys points = [mkdate 2024 1 31; mkdate 2024 2 1]) as Hk.
  { apply sorted_keys_pair. right. split; [reflexivity |]. left. reflexivity. }
  assert (axis_of points v "30/360" = [IZR 30 / 360; IZR 30 / 360]) as Hax.
  { unfold axis_of. rewrite Hk. reflexivity. }
  eexists. split; [apply (init_without_spread points v _ None Hc eq_refl) |].
  cbn [ois_dates ois_tenors]. rewrite Hk, Hax.
  split; [reflexivity |]. split; [reflexivity |].
  intros Hs. apply StronglySorted_inv in Hs as [_ Hall].
  apply Forall_cons in Hall as [Hlt _]. lra.
Qed.

(* ------------------------------------------------------------------ *)
(** ** Interpolation over one and over two knots *)

Lemma np_clip_1_0 (i : Z) : np_clip i 1 0 = 0%Z.
Proof. unfold np_clip. lia. Qed.

Lemma np_clip_1_1 (i : Z) : np_clip i 1 1 = 1%Z.
Proof. unfold np_clip. lia. Qed.

Lemma np_divide_0_0 (a b : R) : a = 0 -> b = 0 -> np_divide a b = FNaN.
Proof.
  intros Ha Hb. unfold np_divide.
  destruct (Req_dec_T b 0) as [_ | Hn]; [| contradiction].
  destruct (Req_dec_T a 0) as [_ | Hn]; [reflexivity | contradiction].
Qed.

Lemma np_divide_nonzero (a b : R) : b <> 0 -> np_divide a b = FReal (a / b).
Proof.
  intros Hb. unfold np_divide.
  destruct (Req_dec_T b 0) as [H0 | _]; [contradiction | reflexivity].
Qed.

(** Over a single knot the clipped index is 0, both ends of the segment are
    that knot, and the slope is [0 / 0]. *)
Lemma interp1d_call_one_knot (x y t : R) :
  interp1d_call (mk_interp1d [x] [y]) t = FNaN.
Proof.
  unfold interp1d_call. cbn [interp_x interp_y length Z.of_nat].
  change (Z.pos (Pos.of_succ_nat 0) - 1)%Z with 0%Z.
  rewrite np_clip_1_0.
  change (np_getitem [x] (0 - 1)) with x. change (np_getitem [x] 0) with x.
  change (np_getitem [y] (0 - 1)) with y. change (np_getitem [y] 0) with y.
  rewrite np_divide_0_0 by lra. reflexivity.
Qed.

(** Over two knots the clipped index is 1 wherever [t] lies, so the one
    segment serves inside and outside the knots. *)
Lemma interp1d_call_two_knots (x0 x1 y0 y1 t : R) :
  x0 <> x1 ->
  interp1d_call (mk_interp1d [x0; x1] [y0; y1]) t =
  FReal (y0 + (y1 - y0) * (t - x0) / (x1 - x0)).
Proof.
  intros Hx. unfold interp1d_call. cbn [interp_x interp_y length Z.of_nat].
  change (Z.pos (Pos.of_succ_nat 1) - 1)%Z with 1%Z.
  rewrite np_clip_1_1.
  change (np_getitem [x0; x1] (1 - 1)) with x0.
  change (np_getitem [x0; x1] 1) with x1.
  change (np_getitem [y0; y1] (1 - 1)) with y0.
  change (np_getitem [y0; y1] 1) with y1.
  rewrite np_divide_nonzero by lra. simpl. f_equal. field. lra.
Qed.

Lemma total_rate_nan_base (oi : interp1d) (ci : option interp1d) (t : R) :
  interp1d_call oi t = FNaN -> total_rate oi ci t = FNaN.
Proof. intros H. unfold total_rate. rewrite H. reflexivity. Qed.

(** C4 (amended): from a base mapping of a single rate point [build]
    succeeds without error, but the composed function is no flat line: at
    every [t], with or without a spread, its value is NaN. *)
Theorem single_point_curve_is_nan (d : date) (r : R) (v : date) (c : string)
    (cs : option (gmap date R)) :
  supported c ->
  exists self self' f,
    __init__ {[ d := r ]} v c cs = Ok self /\
    build self = Ok (self', f) /\
    ois_interp self' = Some (mk_interp1d [tenor c v d] [r]) /\
    forall t, f t = FNaN.
Proof.
  intros Hc.
  assert (axis_of {[ d := r ]} v c = [tenor c v d]) as Hax.
  { unfold axis_of. rewrite sorted_keys_singleton. reflexivity. }
  assert (rates_of {[ d := r ]} = [r]) as Hra.
  { unfold rates_of. rewrite sorted_keys_singleton. simpl.
    rewrite lookup_total_singleton_eq. reflexivity. }
  destruct (truthy cs) eqn:Htr.
  - destruct (truthy_true_inv cs Htr) as (m & -> & Hm).
    eexists _, _, _.
    split; [apply (init_with_spread _ m v c Hc Hm) |].
    split; [apply (build_with_spread _ (axis_of m v c) (rates_of m));
            [cbn [ois_tenors]; rewrite Hax; discriminate
            | reflexivity | reflexivity | apply axis_of_nonempty, Hm] |].
    cbn [ois_tenors ois_rates ois_interp]. rewrite Hax, Hra.
    split; [reflexivity |].
    intros t. apply total_rate_nan_base, interp1d_call_one_knot.
  - eexists _, _, _.
    split; [apply (init_without_spread _ v c cs Hc Htr) |].
    split; [apply build_without_spread;
            [cbn [ois_tenors]; rewrite Hax; discriminate | reflexivity] |].
    cbn [ois_tenors ois_rates ois_interp]. rewrite Hax, Hra.
    split; [reflexivity |].
    intros t. apply total_rate_nan_base, interp1d_call_one_knot.
Qed.

Lemma single_point_curve_is_nan_witness :
  exists self self' f,
    __init__ {[ mkdate 2025 1 1 := 3 / 100 ]} (mkdate 2024 1 1) "ACT/365" None
      = Ok self /\
    build self = Ok (self', f) /\
    forall t, f t = FNaN.
Proof.
  destruct (single_point_curve_is_nan (mkdate 2025 1 1) (3 / 100)
              (mkdate 2024 1 1) "ACT/365" None)
    as (self & self' & f & Hinit & Hbuild & _ & Hf).
  - left. reflexivity.
  - exists self, self', f. repeat split; assumption.
Defined.

(** C4, counterexample: the curve built from the single point
    2025-01-01 at 3% does not return 3% at [t = 1]. *)
Lemma single_point_curve_not_flat :
  exists self self' f,
    __init__ {[ mkdate 2025 1 1 := 3 / 100 ]} (mkdate 2024 1 1) "ACT/365" None
      = Ok self /\
    build self = Ok (self', f) /\
    f 1 = FNaN /\ f 1 <> FReal (3 / 100).
Proof.
  assert (supported "ACT/365") as Hc by (left; reflexivity).
  eexists _, _, _.
  split; [apply (init_without_spread _ _ _ None Hc eq_refl) |].
  split; [apply build_without_spread; [| reflexivity] |].
  { cbn [ois_tenors]. unfold axis_of. rewrite sorted_keys_singleton.
    discriminate. }
  cbn [ois_tenors ois_rates].
  assert (total_rate
            (mk_interp1d
               (axis_of {[ mkdate 2025 1 1 := 3 / 100 ]} (mkdate 2024 1 1)
                        "ACT/365")
               (rates_of {[ mkdate 2025 1 1 := 3 / 100 ]})) None 1 = FNaN)
    as Hnan.
  { unfold axis_of, rates_of. rewrite sorted_keys_singleton. cbn [map].
    apply total_rate_nan_base, interp1d_call_one_knot. }
  cbv zeta. cbn [FundingCurveBuilder.cs_interp].
  split; [exact Hnan |]. rewrite Hnan. discriminate.
Qed.

Lemma year_fraction_tenor (v d : date) (c : string) (t : R) :
  year_fraction v d c = Ok t -> supported c /\ t = tenor c v d.
Proof.
  intros H. destruct (String.eqb_spec c "ACT/365") as [-> | H1].
  { split; [left; reflexivity |]. injection H as <-. reflexivity. }
  destruct (String.eqb_spec c "ACT/360") as [-> | H2].
  { split; [right; left; reflexivity |]. injection H as <-. reflexivity. }
  destruct (String.eqb_spec c "30/360") as [-> | H3].
  { split; [right; right; reflexivity |]. injection H as <-. reflexivity. }
  rewrite year_fraction_unsupported in H; [discriminate |].
  intros [? | [? | ?]]; contradiction.
Qed.

Lemma date_lt_total (a b : date) : a <> b -> date_lt a b \/ date_lt b a.
Proof.
  intros Hne. destruct (total date_le a b) as [H | H].
  - left. apply date_le_lt; assumption.
  - right. apply date_le_lt; [assumption | congruence].
Qed.

(** C5: two base points with year fractions [t0 < t1] and no spread give the
    affine line through them at every [t]: the interpolation between the
    knots and the extrapolation of the same line on both sides of them, and
    no error. *)
Theorem two_point_curve_is_affine (v d0 d1 : date) (c : string)
    (r0 r1 t0 t1 : R) :
  valid_date d0 -> valid_date d1 ->
  year_fraction v d0 c = Ok t0 -> year_fraction v d1 c = Ok t1 ->
  t0 < t1 ->
  exists self self' f,
    __init__ (<[ d0 := r0 ]> {[ d1 := r1 ]}) v c None = Ok self /\
    ois_tenors self = [t0; t1] /\ ois_rates self = [r0; r1] /\
    build self = Ok (self', f) /\
    forall t, f t = FReal (r0 + (r1 - r0) * (t - t0) / (t1 - t0)).
Proof.
  intros Hv0 Hv1 Ht0 Ht1 Hlt.
  destruct (year_fraction_tenor v d0 c t0 Ht0) as [Hc ->].
  destruct (year_fraction_tenor v d1 c _ Ht1) as [_ ->].
  assert (d0 <> d1) as Hne by (intros ->; lra).
  assert (date_lt d0 d1) as Hd.
  { destruct (date_lt_total d0 d1 Hne) as [H | H]; [exact H |].
    pose proof (tenor_le c v d1 d0 Hv1 Hv0 H). lra. }
  set (points := <[ d0 := r0 ]> {[ d1 := r1 ]} : gmap date R).
  assert (axis_of points v c = [tenor c v d0; tenor c v d1]) as Hax.
  { unfold axis_of, points. rewrite (sorted_keys_pair d0 d1 r0 r1 Hd).
    reflexivity. }
  assert (rates_of points = [r0; r1]) as Hra.
  { unfold rates_of, points. rewrite (sorted_keys_pair d0 d1 r0 r1 Hd).
    cbn [map]. rewrite lookup_total_insert_eq.
    rewrite lookup_total_insert_ne by exact Hne.
    rewrite lookup_total_singleton_eq. reflexivity. }
  eexists _, _, _.
  split; [apply (init_without_spread points v c None Hc eq_refl) |].
  cbn [ois_tenors ois_rates].
  split; [exact Hax |]. split; [exact Hra |].
  split; [apply build_without_spread;
          [cbn [ois_tenors]; rewrite Hax; discriminate | reflexivity] |].
  cbn [ois_tenors ois_rates FundingCurveBuilder.cs_interp]. cbv zeta.
  rewrite Hax, Hra. intros t. rewrite total_rate_without_spread.
  apply interp1d_call_two_knots. lra.
Qed.

Lemma two_point_curve_is_affine_witness :
  let v := mkdate 2024 1 1 in
  let d0 := mkdate 2025 1 1 in
  let d1 := mkdate 2026 1 1 in
  let t0 := IZR 366 / 365 in
  let t1 := IZR 731 / 365 in
  exists self self' f,
    __init__ (<[ d0 := 3 / 100 ]> {[ d1 := 35 / 1000 ]}) v "ACT/365" None
      = Ok self /\
    build self = Ok (self', f) /\
    forall t,
      f t = FReal (3 / 100 + (35 / 1000 - 3 / 100) * (t - t0) / (t1 - t0)).
Proof.
  intros v d0 d1 t0 t1.
  destruct (two_point_curve_is_affine v d0 d1 "ACT/365" (3 / 100) (35 / 1000)
              t0 t1)
    as (self & self' & f & Hinit & _ & _ & Hbuild & Hf).
  - apply valid_date_dec. reflexivity.
  - apply valid_date_dec. reflexivity.
  - reflexivity.
  - reflexivity.
  - unfold t0, t1. lra.
  - exists self, self', f. repeat split; assumption.
Defined.

(* ------------------------------------------------------------------ *)
(** ** Discount factors *)

#[local] Abbreviation service := DiscountFactorService.__init__.
#[local] Abbreviation get_df := DiscountFactorService.get_df.

Lemma get_df_unfold (f : R -> npfloat) (v d : date) (c : string) :
  supported c ->
  get_df (service f v c) d =
  Ok (np_exp (fmul (fneg (f (tenor c v d))) (FReal (tenor c v d)))).
Proof.
  intros Hc. unfold DiscountFactorService.get_df.
  cbn [DiscountFactorService.valuation_date DiscountFactorService.dc
       DiscountFactorService.interp].
  rewrite (year_fraction_supported v d c Hc). reflexivity.
Qed.

Lemma tenor_same_date (c : string) (d : date) : tenor c d d = 0.
Proof.
  unfold tenor. rewrite numerator_same_date. unfold Rdiv. apply Rmult_0_l.
Qed.

Lemma year_fraction_valuation_date (v : date) (c : string) :
  supported c -> year_fraction v v c = Ok 0.
Proof.
  intros Hc. rewrite (year_fraction_supported v v c Hc).
  fold (tenor c v v). rewrite tenor_same_date. reflexivity.
Qed.

(** C1 (amended): under a supported convention [get_df] returns
    [exp (- r * t)] for [t] the year fraction from the valuation date and
    [r] the value of the rate function at [t]; at the valuation date itself
    the result is 1 provided the rate function has a finite value at 0. *)
Theorem get_df_formula (f : R -> npfloat) (v d : date) (c : string) :
  supported c ->
  (exists t,
     year_fraction v d c = Ok t /\
     get_df (service f v c) d =
       Ok (np_exp (fmul (fneg (f t)) (FReal t))) /\
     forall r, f t = FReal r ->
       get_df (service f v c) d =
         Ok (FReal (exp (- r * t)))) /\
  (year_fraction v v c = Ok 0 ->
   forall r, f 0 = FReal r ->
     get_df (service f v c) v = Ok (FReal 1)).
Proof.
  intros Hc. split.
  - exists (tenor c v d).
    split; [apply year_fraction_supported, Hc |].
    split; [apply get_df_unfold, Hc |].
    intros r Hr. rewrite (get_df_unfold f v d c Hc), Hr. reflexivity.
  - intros H0 r Hr. unfold DiscountFactorService.get_df.
    cbn [DiscountFactorService.valuation_date DiscountFactorService.dc
         DiscountFactorService.interp].
    rewrite H0. cbn. rewrite Hr. cbn. do 2 f_equal.
    rewrite Rmult_0_r. apply exp_0.
Qed.

Lemma get_df_formula_witness :
  let f : R -> npfloat := fun _ => FReal (3 / 100) in
  let v := mkdate 2024 1 1 in
  get_df (service f v "ACT/365") (mkdate 2025 1 1)
    = Ok (FReal (exp (- (3 / 100) * (IZR 366 / 365)))) /\
  get_df (service f v "ACT/365") v = Ok (FReal 1).
Proof.
  intros f v.
  assert (supported "ACT/365") as Hc by (left; reflexivity).
  destruct (get_df_formula f v (mkdate 2025 1 1) "ACT/365" Hc)
    as [(t & Ht & _ & Hreal) Hone].
  injection Ht as <-. split.
  - apply (Hreal (3 / 100)). reflexivity.
  - apply (Hone (year_fraction_valuation_date v "ACT/365" Hc) (3 / 100)).
    reflexivity.
Defined.

(** The curve of a single base point and no spread, spelled out. *)
Lemma single_point_build (d : date) (r : R) (v : date) (c : string) :
  supported c ->
  exists self self',
    __init__ {[ d := r ]} v c None = Ok self /\
    build self =
      Ok (self', total_rate (mk_interp1d [tenor c v d] [r]) None).
Proof.
  intros Hc.
  assert (axis_of {[ d := r ]} v c = [tenor c v d]) as Hax.
  { unfold axis_of. rewrite sorted_keys_singleton. reflexivity. }
  assert (rates_of {[ d := r ]} = [r]) as Hra.
  { unfold rates_of. rewrite sorted_keys_singleton. simpl.
    rewrite lookup_total_singleton_eq. reflexivity. }
  eexists _, _.
  split; [apply (init_without_spread _ v c None Hc eq_refl) |].
  rewrite build_without_spread;
    [| cbn [ois_tenors]; rewrite Hax; discriminate | reflexivity].
  cbn [ois_tenors ois_rates FundingCurveBuilder.cs_interp]. cbv zeta.
  rewrite Hax, Hra. reflexivity.
Qed.

(** C1, counterexample: the composed function of the curve built from the
    single point 2025-01-01 at 3% is NaN at 0, and so is the discount factor
    at the valuation date, although the year fraction there is 0. *)
Lemma get_df_valuation_date_nan :
  let v := mkdate 2024 1 1 in
  exists self self' f,
    __init__ {[ mkdate 2025 1 1 := 3 / 100 ]} v "ACT/365" None = Ok self /\
    build self = Ok (self', f) /\
    year_fraction v v "ACT/365" = Ok 0 /\
    get_df (service f v "ACT/365") v = Ok FNaN /\
    get_df (service f v "ACT/365") v <> Ok (FReal 1).
Proof.
  intros v.
  assert (supported "ACT/365") as Hc by (left; reflexivity).
  destruct (single_point_build (mkdate 2025 1 1) (3 / 100) v "ACT/365" Hc)
    as (self & self' & Hinit & Hbuild).
  eexists self, self', _.
  split; [exact Hinit |]. split; [exact Hbuild |].
  split; [apply year_fraction_valuation_date, Hc |].
  assert (get_df (service
                    (total_rate
                       (mk_interp1d [tenor "ACT/365" v (mkdate 2025 1 1)]
                                    [3 / 100]) None) v "ACT/365") v
          = Ok FNaN) as Hnan.
  { rewrite (get_df_unfold _ v v _ Hc).
    rewrite (total_rate_nan_base _ None _ (interp1d_call_one_knot _ _ _)).
    reflexivity. }
  split; [exact Hnan |]. rewrite Hnan. discriminate.
Qed.

Lemma tenor_before (c : string) (v d : date) :
  valid_date v -> valid_date d -> date_lt d v ->
  tenor c v d <= 0 /\ (c <> "30/360"%string -> tenor c v d < 0).
Proof.
  intros Hv Hd Hlt. rewrite <- (tenor_same_date c v). split.
  - apply tenor_le; assumption.
  - intros Hc. apply tenor_lt_act; assumption.
Qed.

Lemma exp_gt_1 (x : R) : 0 < x -> 1 < exp x.
Proof. intros Hx. rewrite <- exp_0. apply exp_increasing, Hx. Qed.

Lemma exp_lt_1 (x : R) : x < 0 -> exp x < 1.
Proof. intros Hx. rewrite <- exp_0. apply exp_increasing, Hx. Qed.

(** C8 (amended): for a target date before the valuation date [get_df]
    applies the same formula, without validation.  The year fraction [t] is
    at most 0, and negative under ACT/365 and ACT/360; whenever [t] is
    negative and the rate at [t] is positive, the discount factor is greater
    than 1. *)
Theorem get_df_before_valuation (f : R -> npfloat) (v d : date) (c : string) :
  supported c -> valid_date v -> valid_date d -> date_lt d v ->
  exists t,
    year_fraction v d c = Ok t /\
    t <= 0 /\
    (c <> "30/360"%string -> t < 0) /\
    get_df (service f v c) d =
      Ok (np_exp (fmul (fneg (f t)) (FReal t))) /\
    forall r, f t = FReal r -> t < 0 -> 0 < r ->
      exists df,
        get_df (service f v c) d = Ok (FReal df) /\
        1 < df.
Proof.
  intros Hc Hv Hd Hlt.
  destruct (tenor_before c v d Hv Hd Hlt) as [Hle Hneg].
  exists (tenor c v d).
  split; [apply year_fraction_supported, Hc |].
  split; [exact Hle |]. split; [exact Hneg |].
  split; [apply get_df_unfold, Hc |].
  intros r Hr Ht Hpos. exists (exp (- r * tenor c v d)).
  split; [rewrite (get_df_unfold f v d c Hc), Hr; reflexivity |].
  apply exp_gt_1. nra.
Qed.

Lemma get_df_before_valuation_witness :
  let f : R -> npfloat := fun _ => FReal (3 / 100) in
  let v := mkdate 2024 1 2 in
  let d := mkdate 2024 1 1 in
  exists t df,
    year_fraction v d "ACT/365" = Ok t /\ t < 0 /\
    get_df (service f v "ACT/365") d = Ok (FReal df) /\
    1 < df.
Proof.
  intros f v d.
  destruct (get_df_before_valuation f v d "ACT/365")
    as (t & Ht & _ & Hneg & _ & Hgt).
  - left. reflexivity.
  - apply valid_date_dec. reflexivity.
  - apply valid_date_dec. reflexivity.
  - right. split; [reflexivity |]. right. split; [reflexivity |]. reflexivity.
  - assert (t < 0) as Ht0 by (apply Hneg; discriminate).
    destruct (Hgt (3 / 100) eq_refl Ht0) as (df & Hdf & H1); [lra |].
    exists t, df. repeat split; assumption.
Defined.

(** C8, counterexample: a target date before the valuation date does not
    force a discount factor above 1.  Under ACT/365 with a rate of -1% the
    year fraction is negative and the discount factor is below 1; under
    30/360, from 2024-02-01 back to 2024-01-31, the year fraction is 0 and the
    discount factor at a rate of 3% is 1. *)
Lemma get_df_before_valuation_not_above_1 :
  (let f : R -> npfloat := fun _ => FReal (- (1 / 100)) in
   let v := mkdate 2024 1 2 in
   let d := mkdate 2024 1 1 in
   valid_date v /\ valid_date d /\ date_lt d v /\
   exists t df,
     year_fraction v d "ACT/365" = Ok t /\ t < 0 /\
     get_df (service f v "ACT/365") d = Ok (FReal df) /\
     df < 1) /\
  (let f : R -> npfloat := fun _ => FReal (3 / 100) in
   let v := mkdate 2024 2 1 in
   let d := mkdate 2024 1 31 in
   valid_date v /\ valid_date d /\ date_lt d v /\
   year_fraction v d "30/360" = Ok (IZR 0 / 360) /\
   ~ (IZR 0 / 360 < 0) /\
   get_df (service f v "30/360") d = Ok (FReal 1)).
Proof.
  split.
  - intros f v d.
    split; [apply valid_date_dec; reflexivity |].
    split; [apply valid_date_dec; reflexivity |].
    split; [right; split; [reflexivity |]; right; split; reflexivity |].
    exists (IZR (-1) / 365), (exp (- - (1 / 100) * (IZR (-1) / 365))).
    split; [reflexivity |]. split; [lra |]. split; [reflexivity |].
    apply exp_lt_1. lra.
  - intros f v d.
    split; [apply valid_date_dec; reflexivity |].
    split; [apply valid_date_dec; reflexivity |].
    split; [right; split; [reflexivity |]; left; reflexivity |].
    split; [reflexivity |]. split; [lra |].
    unfold DiscountFactorService.get_df.
    cbn [DiscountFactorService.valuation_date DiscountFactorService.dc
         DiscountFactorService.interp].
    rewrite year_fraction_30_360.
    change (days_30_360 v d) with 0%Z. cbn.
    do 2 f_equal. rewrite <- exp_0. f_equal. lra.
Qed.

(* ------------------------------------------------------------------ *)
(** ** [searchsorted] on a sorted array *)

Section Searchsorted.

#[local] Open Scope Z_scope.

Lemma np_getitem_nat (a : list R) (k : nat) :
  np_getitem a (Z.of_nat k) = nth k a 0%R.
Proof.
  unfold np_getitem.
  destruct (Z.ltb_spec (Z.of_nat k) 0) as [H | _]; [lia |].
  rewrite Nat2Z.id. reflexivity.
Qed.

Lemma StronglySorted_nth (rel : R -> R -> Prop) (a : list R) (i j : nat) :
  StronglySorted rel a -> (i < j < length a)%nat ->
  rel (nth i a 0%R) (nth j a 0%R).
Proof.
  intros Hs. revert i j.
  induction Hs as [| x l Hs IH Hall]; intros i j Hij; [simpl in Hij; lia |].
  destruct j as [| j]; [lia |]. simpl in Hij.
  destruct i as [| i].
  - simpl. rewrite Forall_forall in Hall. apply Hall.
    apply list_elem_of_In, nth_In. lia.
  - simpl. apply IH. lia.
Qed.

(** The entries of a strictly increasing array, by integer index. *)
Lemma np_getitem_lt (a : list R) (i j : Z) :
  StronglySorted Rlt a -> 0 <= i < j -> j < Z.of_nat (length a) ->
  (np_getitem a i < np_getitem a j)%R.
Proof.
  intros Hs Hij Hj.
  rewrite <- (Z2Nat.id i), <- (Z2Nat.id j) by lia.
  rewrite !np_getitem_nat. apply StronglySorted_nth; [exact Hs | lia].
Qed.

Lemma np_getitem_le (a : list R) (i j : Z) :
  StronglySorted Rlt a -> 0 <= i <= j -> j < Z.of_nat (length a) ->
  (np_getitem a i <= np_getitem a j)%R.
Proof.
  intros Hs Hij Hj. destruct (Z.eq_dec i j) as [-> | Hne]; [lra |].
  left. apply np_getitem_lt; [exact Hs | lia | exact Hj].
Qed.

(** The search keeps its invariant: everything left of the interval is below
    the key, everything from its right end on is not. *)
Lemma binsearch_left_spec (fuel : nat) (arr : list R) (key : R) (lo hi : Z) :
  StronglySorted Rlt arr ->
  0 <= lo <= hi -> hi <= Z.of_nat (length arr) ->
  hi - lo <= Z.of_nat fuel ->
  (forall j, 0 <= j < lo -> (np_getitem arr j < key)%R) ->
  (forall j, hi <= j < Z.of_nat (length arr) -> (key <= np_getitem arr j)%R) ->
  let r := binsearch_left fuel arr key lo hi in
  lo <= r <= hi /\
  (forall j, 0 <= j < r -> (np_getitem arr j < key)%R) /\
  (forall j, r <= j < Z.of_nat (length arr) -> (key <= np_getitem arr j)%R).
Proof.
  intros Hs. revert lo hi.
  induction fuel as [| fuel IH]; intros lo hi Hlo Hhi Hfuel Hbelow Habove.
  - simpl. assert (lo = hi) as -> by lia. repeat split; auto; lia.
  - cbn [binsearch_left].
    destruct (Z.ltb_spec lo hi) as [Hlt | Hge].
    + rewrite Z.shiftr_div_pow2 by lia. change (2 ^ 1) with 2.
      set (mid := lo + (hi - lo) / 2).
      assert (lo <= mid < hi) as Hmid.
      { unfold mid. Z.to_euclidean_division_equations. lia. }
      destruct (Rlt_dec (np_getitem arr mid) key) as [Hk | Hk].
      * destruct (IH (mid + 1) hi) as (Hr & Hb & Ha);
          [lia | lia | lia | | exact Habove |].
        { intros j Hj.
          apply Rle_lt_trans with (np_getitem arr mid); [| exact Hk].
          apply np_getitem_le; [exact Hs | lia | lia]. }
        split; [lia |]. split; assumption.
      * destruct (IH lo mid) as (Hr & Hb & Ha);
          [lia | lia | lia | exact Hbelow | |].
        { intros j Hj.
          apply Rle_trans with (np_getitem arr mid); [lra |].
          apply np_getitem_le; [exact Hs | lia | lia]. }
        split; [lia |]. split; assumption.
    + assert (lo = hi) as -> by lia. repeat split; auto; lia.
Qed.

(** On a strictly increasing array [searchsorted] returns the insertion
    point of the key. *)
Lemma searchsorted_spec (arr : list R) (key : R) :
  StronglySorted Rlt arr ->
  let s := searchsorted arr key in
  0 <= s <= Z.of_nat (length arr) /\
  (forall j, 0 <= j < s -> (np_getitem arr j < key)%R) /\
  (forall j, s <= j < Z.of_nat (length arr) -> (key <= np_getitem arr j)%R).
Proof.
  intros Hs. unfold searchsorted.
  apply binsearch_left_spec; [exact Hs | lia | lia | lia | lia | lia].
Qed.

End Searchsorted.

(* ------------------------------------------------------------------ *)
(** ** Piecewise-linear interpolation over strictly increasing knots *)

Section Interpolation.

Variables (x y : list R).
Hypothesis x_increasing : StronglySorted Rlt x.
Hypothesis x_two : (2 <= length x)%nat.

Let n : Z := Z.of_nat (length x).

(** The segment [interp1d_call] selects for [t]: its right end [i] lies in
    [1 .. n-1]; it is the first segment at or left of the first knot, the
    last one right of the last knot, and the segment containing [t]
    otherwise. *)
Lemma interp1d_call_segment (t : R) :
  exists i : Z,
    (1 <= i <= n - 1)%Z /\
    interp1d_call (mk_interp1d x y) t =
      FReal (np_getitem y (i - 1)
             + (np_getitem y i - np_getitem y (i - 1))
               * (t - np_getitem x (i - 1))
               / (np_getitem x i - np_getitem x (i - 1))) /\
    (t <= np_getitem x 0 -> i = 1%Z) /\
    (np_getitem x (n - 1) < t -> i = (n - 1)%Z) /\
    (np_getitem x 0 < t <= np_getitem x (n - 1) ->
     np_getitem x (i - 1) < t <= np_getitem x i).
Proof.
  destruct (searchsorted_spec x t x_increasing) as (Hs & Hbelow & Habove).
  fold n in Hs, Habove.
  assert (2 <= n)%Z as Hn by (unfold n; lia).
  set (s := searchsorted x t) in *.
  exists (np_clip s 1 (n - 1)).
  assert (1 <= np_clip s 1 (n - 1) <= n - 1)%Z as Hi
    by (unfold np_clip; lia).
  split; [exact Hi |]. split; [| split; [| split]].
  - unfold interp1d_call. cbn [interp_x interp_y]. fold s. fold n.
    set (i := np_clip s 1 (n - 1)) in *.
    assert (np_getitem x (i - 1) < np_getitem x i) as Hlt
      by (apply np_getitem_lt; [exact x_increasing | lia | fold n; lia]).
    rewrite np_divide_nonzero by lra. simpl. f_equal. field. lra.
  - intros Ht. assert (s = 0%Z) as Hs0; [| unfold np_clip; lia].
    destruct (Z.eq_dec s 0%Z) as [H0 | Hne]; [exact H0 |].
    pose proof (Hbelow 0%Z ltac:(lia)). lra.
  - intros Ht. assert (s = n) as Hsn; [| unfold np_clip; lia].
    destruct (Z.eq_dec s n) as [H0 | Hne]; [exact H0 |].
    pose proof (Habove (n - 1)%Z ltac:(lia)). lra.
  - intros [Ht0 Htn].
    assert (1 <= s <= n - 1)%Z as Hsr.
    { split.
      - destruct (Z.eq_dec s 0%Z) as [H0 | Hne]; [| lia].
        pose proof (Habove 0%Z ltac:(lia)). lra.
      - destruct (Z.eq_dec s n) as [H0 | Hne]; [| lia].
        pose proof (Hbelow (n - 1)%Z ltac:(lia)). lra. }
    replace (np_clip s 1 (n - 1)) with s by (unfold np_clip; lia).
    split; [apply Hbelow; lia | apply Habove; lia].
Qed.


End Interpolation.

(* ------------------------------------------------------------------ *)
(** ** More on [year_fraction] *)

Lemma actual_supported (c : string) : actual_convention c -> supported c.
Proof. intros [-> | ->]; [left | right; left]; reflexivity. Qed.

Lemma actual_not_30_360 (c : string) :
  actual_convention c -> c <> "30/360"%string.
Proof. intros [-> | ->]; discriminate. Qed.

Lemma actual_numerator (c : string) (s e : date) :
  actual_convention c -> numerator c s e = days_between s e.
Proof. intros [-> | ->]; reflexivity. Qed.

Lemma year_fraction_actual (s e : date) (c : string) :
  actual_convention c ->
  year_fraction s e c = Ok (IZR (days_between s e) / divisor c).
Proof. intros [-> | ->]; reflexivity. Qed.

(** X1: under ACT/365 and ACT/360 swapping the two dates negates the year
    fraction. *)
Theorem year_fraction_actual_antisymmetric (s e : date) (c : string) :
  actual_convention c ->
  exists a,
    year_fraction s e c = Ok a /\ year_fraction e s c = Ok (- a).
Proof.
  intros Hc. eexists. split; [apply year_fraction_actual, Hc |].
  rewrite (year_fraction_actual e s c Hc). f_equal.
  unfold days_between.
  replace (toordinal s - toordinal e)%Z
    with (- (toordinal e - toordinal s))%Z by lia.
  rewrite opp_IZR. unfold Rdiv. lra.
Qed.

Lemma year_fraction_actual_antisymmetric_witness :
  year_fraction (mkdate 2024 1 1) (mkdate 2025 1 1) "ACT/360"
    = Ok (IZR 366 / 360) /\
  year_fraction (mkdate 2025 1 1) (mkdate 2024 1 1) "ACT/360"
    = Ok (- (IZR 366 / 360)).
Proof.
  destruct (year_fraction_actual_antisymmetric
              (mkdate 2024 1 1) (mkdate 2025 1 1) "ACT/360")
    as (a & Ha & Hb).
  - right. reflexivity.
  - injection Ha as <-. split; [reflexivity | exact Hb].
Defined.

(** X2: under ACT/365 and ACT/360 year fractions add up along a chain of
    three dates. *)
Theorem year_fraction_actual_additive (a b c : date) (conv : string) :
  actual_convention conv ->
  exists x y,
    year_fraction a b conv = Ok x /\ year_fraction b c conv = Ok y /\
    year_fraction a c conv = Ok (x + y).
Proof.
  intros Hc. eexists _, _.
  split; [apply year_fraction_actual, Hc |].
  split; [apply year_fraction_actual, Hc |].
  rewrite (year_fraction_actual a c conv Hc). f_equal.
  unfold days_between.
  replace (toordinal c - toordinal a)%Z
    with ((toordinal b - toordinal a) + (toordinal c - toordinal b))%Z by lia.
  rewrite plus_IZR. unfold Rdiv. lra.
Qed.

Lemma year_fraction_actual_additive_witness :
  exists x y,
    year_fraction (mkdate 2024 1 1) (mkdate 2024 7 1) "ACT/365" = Ok x /\
    year_fraction (mkdate 2024 7 1) (mkdate 2025 1 1) "ACT/365" = Ok y /\
    year_fraction (mkdate 2024 1 1) (mkdate 2025 1 1) "ACT/365" = Ok (x + y).
Proof.
  apply (year_fraction_actual_additive
           (mkdate 2024 1 1) (mkdate 2024 7 1) (mkdate 2025 1 1) "ACT/365").
  left. reflexivity.
Defined.

Lemma IZR_div_360_opp (a b : Z) :
  IZR a / 360 = - (IZR b / 360) <-> a = (- b)%Z.
Proof.
  split.
  - intros H. apply eq_IZR. rewrite opp_IZR. lra.
  - intros ->. rewrite opp_IZR. lra.
Qed.

(** X3: under 30/360 swapping the two dates negates the year fraction
    except when one day of the month is the 31st and the other is before the
    30th: then only one of the two directions clamps the 31st. *)
Theorem year_fraction_30_360_antisymmetric_iff (s e : date) :
  (1 <= day s <= 31)%Z -> (1 <= day e <= 31)%Z ->
  exists a b,
    year_fraction s e "30/360" = Ok a /\
    year_fraction e s "30/360" = Ok b /\
    (a = - b <->
     ~ ((day s < 30 /\ day e = 31) \/ (day e < 30 /\ day s = 31))%Z).
Proof.
  intros Hs He. eexists _, _.
  split; [apply year_fraction_30_360 |].
  split; [apply year_fraction_30_360 |].
  rewrite IZR_div_360_opp. unfold days_30_360.
  destruct (Z.ltb_spec (day s) 30), (Z.ltb_spec (day e) 30); lia.
Qed.

Lemma year_fraction_30_360_antisymmetric_iff_witness :
  exists a b,
    year_fraction (mkdate 2024 1 15) (mkdate 2024 3 31) "30/360" = Ok a /\
    year_fraction (mkdate 2024 3 31) (mkdate 2024 1 15) "30/360" = Ok b /\
    a <> - b.
Proof.
  destruct (year_fraction_30_360_antisymmetric_iff
              (mkdate 2024 1 15) (mkdate 2024 3 31))
    as (a & b & Ha & Hb & Hiff); [simpl; lia | simpl; lia |].
  exists a, b. split; [exact Ha |]. split; [exact Hb |].
  intros Hab. apply Hiff in Hab. apply Hab. left. simpl. lia.
Defined.

(** X4: for a fixed start date a later end date never gives a smaller year
    fraction, and gives a larger one under ACT/365 and ACT/360. *)
Theorem year_fraction_monotone (s e1 e2 : date) (c : string) :
  supported c -> valid_date e1 -> valid_date e2 -> date_lt e1 e2 ->
  exists t1 t2,
    year_fraction s e1 c = Ok t1 /\ year_fraction s e2 c = Ok t2 /\
    t1 <= t2 /\ (actual_convention c -> t1 < t2).
Proof.
  intros Hc H1 H2 Hlt. exists (tenor c s e1), (tenor c s e2).
  split; [apply year_fraction_supported, Hc |].
  split; [apply year_fraction_supported, Hc |].
  split; [apply tenor_le; assumption |].
  intros Ha. apply tenor_lt_act; [apply actual_not_30_360, Ha | | |];
    assumption.
Qed.

Lemma year_fraction_monotone_witness :
  exists t1 t2,
    year_fraction (mkdate 2024 1 1) (mkdate 2024 2 29) "ACT/365" = Ok t1 /\
    year_fraction (mkdate 2024 1 1) (mkdate 2024 3 1) "ACT/365" = Ok t2 /\
    t1 < t2.
Proof.
  destruct (year_fraction_monotone (mkdate 2024 1 1) (mkdate 2024 2 29)
              (mkdate 2024 3 1) "ACT/365")
    as (t1 & t2 & H1 & H2 & _ & Hlt).
  - left. reflexivity.
  - apply valid_date_dec. reflexivity.
  - apply valid_date_dec. reflexivity.
  - right. split; [reflexivity |]. left. reflexivity.
  - exists t1, t2. split; [exact H1 |]. split; [exact H2 |].
    apply Hlt. left. reflexivity.
Defined.

(** X5: under 30/360 two dates on the same day of the month are a whole
    number of months apart: the year fraction is the difference of the years
    plus a twelfth of the difference of the months. *)
Theorem year_fraction_30_360_same_day (s e : date) :
  day s = day e ->
  year_fraction s e "30/360" =
  Ok (IZR (year e - year s) + IZR (month e - month s) / 12).
Proof.
  intros Hd. rewrite year_fraction_30_360. f_equal.
  replace (days_30_360 s e)
    with ((year e - year s) * 360 + (month e - month s) * 30)%Z.
  - rewrite plus_IZR, !mult_IZR. lra.
  - unfold days_30_360. rewrite <- Hd.
    destruct (Z.ltb_spec (day s) 30); lia.
Qed.

Lemma year_fraction_30_360_same_day_witness :
  year_fraction (mkdate 2024 1 31) (mkdate 2026 7 31) "30/360" =
  Ok (IZR 2 + IZR 6 / 12).
Proof.
  apply (year_fraction_30_360_same_day (mkdate 2024 1 31) (mkdate 2026 7 31)).
  reflexivity.
Defined.

(* ------------------------------------------------------------------ *)
(** ** More on the constructor of the builder *)

Lemma comprehension_length {A B : Type} (f : A -> result B) (l : list A)
    (bs : list B) :
  comprehension f l = Ok bs -> length bs = length l.
Proof.
  revert bs. induction l as [| a l IH]; intros bs H.
  - injection H as <-. reflexivity.
  - simpl in H. destruct (f a) as [b | e]; [| discriminate]. simpl in H.
    destruct (comprehension f l) as [bs' | e]; [| discriminate].
    simpl in H. injection H as <-. simpl. f_equal. apply IH. reflexivity.
Qed.

Lemma comprehension_unsupported (v : date) (c : string) (l : list date) :
  ~ supported c -> l <> [] ->
  comprehension (fun d => year_fraction v d c) l
  = Raise (UnsupportedConvention c).
Proof.
  intros Hc Hl. destruct l as [| d l]; [congruence |].
  simpl. rewrite (year_fraction_unsupported v d c Hc). reflexivity.
Qed.

Lemma sorted_keys_length (points : gmap date R) :
  length (sorted_keys points) = size points.
Proof.
  rewrite (Permutation_length (sorted_keys_perm points)), length_fmap.
  apply length_map_to_list.
Qed.

(** What a successful call of the constructor has stored, whatever the
    convention. *)
Lemma init_inv (points : gmap date R) (v : date) (c : string)
    (cs : option (gmap date R)) (self : FundingCurveBuilder.t) :
  __init__ points v c cs = Ok self ->
  FundingCurveBuilder.valuation_date self = v /\
  FundingCurveBuilder.dc self = c /\
  ois_dates self = sorted_keys points /\
  comprehension (fun d => year_fraction v d c) (sorted_keys points)
    = Ok (ois_tenors self) /\
  ois_rates self = rates_of points /\
  ois_interp self = None /\ cs_interp self = None /\
  match cs_tenors self, cs_rates self with
  | Some ct, Some cr =>
      exists m, cs = Some m /\ m <> ∅ /\
        cs_dates self = Some (sorted_keys m) /\
        comprehension (fun d => year_fraction v d c) (sorted_keys m) = Ok ct /\
        cr = rates_of m
  | None, None => truthy cs = false /\ cs_dates self = None
  | _, _ => False
  end.
Proof.
  intros Hinit. unfold __init__ in Hinit.
  destruct (comprehension _ (sorted_keys points)) as [ts | e] eqn:Hts;
    [| discriminate]. simpl in Hinit.
  destruct cs as [m |].
  - destruct (truthy (Some m)) eqn:Htr.
    + destruct (comprehension _ (sorted_keys m)) as [cts | e] eqn:Hcts;
        [| discriminate]. simpl in Hinit. injection Hinit as <-.
      cbn. repeat (split; [reflexivity |]).
      exists m. split; [reflexivity |].
      destruct (truthy_true_inv _ Htr) as (m' & [= <-] & Hm).
      split; [exact Hm |]. split; [reflexivity |].
      split; [exact Hcts | reflexivity].
    + injection Hinit as <-. cbn. repeat (split; [reflexivity |]).
      split; reflexivity.
  - injection Hinit as <-. cbn. repeat (split; [reflexivity |]).
    split; reflexivity.
Qed.

(** X6: the three base arrays a successful constructor stores have one entry
    per key of the base mapping, the spread arrays (when the spread mapping
    is non-empty) one per key of the spread mapping, and no interpolant is
    stored yet. *)
Theorem init_array_lengths (points : gmap date R) (v : date) (c : string)
    (cs : option (gmap date R)) (self : FundingCurveBuilder.t) :
  __init__ points v c cs = Ok self ->
  length (ois_dates self) = size points /\
  length (ois_tenors self) = size points /\
  length (ois_rates self) = size points /\
  ois_interp self = None /\ cs_interp self = None /\
  (forall m, cs = Some m -> m <> ∅ ->
     exists ct cr,
       cs_tenors self = Some ct /\ cs_rates self = Some cr /\
       length ct = size m /\ length cr = size m) /\
  (truthy cs = false -> cs_tenors self = None /\ cs_rates self = None).
Proof.
  intros Hinit.
  destruct (init_inv _ _ _ _ _ Hinit)
    as (_ & _ & Hd & Ht & Hr & Hoi & Hci & Hcs).
  rewrite Hd, Hr. unfold rates_of. rewrite length_map.
  rewrite (comprehension_length _ _ _ Ht), sorted_keys_length.
  repeat (split; [first [reflexivity | assumption] |]).
  destruct (cs_tenors self) as [ct |], (cs_rates self) as [cr |];
    try contradiction.
  - destruct Hcs as (m & -> & Hm & _ & Hct & ->). split.
    + intros m' [= <-] _. exists ct, (rates_of m).
      split; [reflexivity |]. split; [reflexivity |].
      rewrite (comprehension_length _ _ _ Hct). unfold rates_of.
      rewrite length_map, sorted_keys_length. split; reflexivity.
    + simpl. rewrite bool_decide_eq_false_2 by exact Hm. discriminate.
  - destruct Hcs as [Htr _]. split; [| intros _; split; reflexivity].
    intros m -> Hm. simpl in Htr.
    rewrite bool_decide_eq_false_2 in Htr by exact Hm. discriminate.
Qed.

Lemma init_array_lengths_witness :
  let v := mkdate 2024 1 1 in
  let points : gmap date R :=
    <[ mkdate 2025 1 1 := 3 / 100 ]> {[ mkdate 2026 1 1 := 35 / 1000 ]} in
  exists self,
    __init__ points v "ACT/365" None = Ok self /\
    length (ois_tenors self) = 2%nat /\ length (ois_rates self) = 2%nat.
Proof.
  intros v points.
  assert (supported "ACT/365") as Hc by (left; reflexivity).
  pose proof (init_without_spread points v "ACT/365" None Hc eq_refl) as Hinit.
  destruct (init_array_lengths _ _ _ _ _ Hinit) as (_ & Ht & Hr & _).
  assert (size points = 2%nat) as Hsize.
  { unfold points. rewrite map_size_insert_None, map_size_singleton;
      [reflexivity |].
    apply lookup_singleton_ne. discriminate. }
  eexists. split; [exact Hinit |]. rewrite Ht, Hr, Hsize.
  split; reflexivity.
Defined.

(** X7: the constructor raises exactly when the convention is unsupported
    and there is a date to convert, in the base mapping or in a non-empty
    spread mapping; the error is the one of [year_fraction].  With nothing to
    convert an unsupported convention goes unnoticed. *)
Theorem init_raises_iff (points : gmap date R) (v : date) (c : string)
    (cs : option (gmap date R)) :
  ((exists e, __init__ points v c cs = Raise e) <->
   ~ supported c /\ (points <> ∅ \/ truthy cs = true)) /\
  (forall e, __init__ points v c cs = Raise e -> e = UnsupportedConvention c).
Proof.
  destruct (decide (supported c)) as [Hc | Hc].
  { assert (exists self, __init__ points v c cs = Ok self) as [self Hself].
    { destruct (truthy cs) eqn:Htr.
      - destruct (truthy_true_inv cs Htr) as (m & -> & Hm).
        eexists. apply (init_with_spread points m v c Hc Hm).
      - eexists. apply (init_without_spread points v c cs Hc Htr). }
    rewrite Hself. split; [split |].
    - intros [e He]. discriminate.
    - intros [Hn _]. contradiction.
    - intros e He. discriminate. }
  destruct (decide (points = ∅)) as [-> | Hp].
  - unfold __init__. rewrite sorted_keys_empty. cbn [comprehension]. simpl.
    destruct cs as [m |].
    + destruct (truthy (Some m)) eqn:Htr.
      * destruct (truthy_true_inv _ Htr) as (m' & [= <-] & Hm).
        rewrite (comprehension_unsupported v c _ Hc
                   (sorted_keys_nonempty m Hm)). simpl.
        split; [split |].
        -- intros _. split; [exact Hc | right; reflexivity].
        -- intros _. eexists. reflexivity.
        -- intros e [= <-]. reflexivity.
      * split; [split |].
        -- intros [e He]. discriminate.
        -- intros [_ [H | H]]; [contradiction | discriminate].
        -- intros e He. discriminate.
    + split; [split |].
      * intros [e He]. discriminate.
      * intros [_ [H | H]]; [contradiction | discriminate].
      * intros e He. discriminate.
  - unfold __init__.
    rewrite (comprehension_unsupported v c _ Hc (sorted_keys_nonempty _ Hp)).
    simpl. split; [split |].
    + intros _. split; [exact Hc | left; exact Hp].
    + intros _. eexists. reflexivity.
    + intros e [= <-]. reflexivity.
Qed.

Lemma map_to_list_lookup_total (points : gmap date R) :
  map (fun d => (d, points !!! d)) (map_to_list points).*1
  = map_to_list points.
Proof.
  assert (forall l : list (date * R),
             Forall (fun p => points !! p.1 = Some p.2) l ->
             map (fun d => (d, points !!! d)) l.*1 = l) as Hgen.
  { induction l as [| [d r] l IH]; intros Hall; [reflexivity |].
    apply Forall_cons in Hall as [Hd Hall]. simpl in Hd.
    change (((d, r) :: l).*1) with (d :: l.*1). cbn [map].
    rewrite (lookup_total_correct _ _ _ Hd), (IH Hall). reflexivity. }
  apply Hgen, Forall_forall. intros [d r] Hin.
  apply elem_of_map_to_list in Hin. exact Hin.
Qed.

(** X8: the constructor stores the items of the base mapping and nothing
    else: the dates strictly ascending, and each rate at the position of its
    date. *)
Theorem init_stores_sorted_items (points : gmap date R) (v : date)
    (c : string) (cs : option (gmap date R)) (self : FundingCurveBuilder.t) :
  __init__ points v c cs = Ok self ->
  StronglySorted date_lt (ois_dates self) /\
  zip (ois_dates self) (ois_rates self) ≡ₚ map_to_list points /\
  (forall i d, ois_dates self !! i = Some d ->
     ois_rates self !! i = points !! d).
Proof.
  intros Hinit.
  destruct (init_inv _ _ _ _ _ Hinit) as (_ & _ & -> & _ & -> & _).
  split; [apply sorted_keys_strict |]. split.
  - unfold rates_of.
    assert (forall l : list date,
               zip l (map (fun d => points !!! d) l)
               = (fun d => (d, points !!! d)) <$> l) as Hzip.
    { induction l as [| d l IH]; [reflexivity |]. simpl. f_equal. exact IH. }
    rewrite Hzip, (sorted_keys_perm points).
    apply reflexive_eq, map_to_list_lookup_total.
  - intros i d Hi. unfold rates_of.
    change (map ?f ?l) with (f <$> l). rewrite list_lookup_fmap, Hi. simpl.
    assert (is_Some (points !! d)) as [r Hr].
    { apply sorted_keys_elem_of, list_elem_of_lookup. eauto. }
    rewrite (lookup_total_correct _ _ _ Hr), Hr. reflexivity.
Qed.

(* ------------------------------------------------------------------ *)
(** ** Curves over two or more dates under the actual-day conventions *)

Lemma axis_of_length (points : gmap date R) (v : date) (c : string) :
  length (axis_of points v c) = size points.
Proof. unfold axis_of. rewrite length_map. apply sorted_keys_length. Qed.

Lemma rates_of_length (points : gmap date R) :
  length (rates_of points) = size points.
Proof. unfold rates_of. rewrite length_map. apply sorted_keys_length. Qed.

Lemma axis_of_increasing (points : gmap date R) (v : date) (c : string) :
  actual_convention c ->
  (forall d, is_Some (points !! d) -> valid_date d) ->
  StronglySorted Rlt (axis_of points v c).
Proof.
  intros Hc Hv. unfold axis_of.
  apply axis_sorted;
    [| apply sorted_keys_valid, Hv | apply sorted_keys_strict].
  intros a b. apply tenor_lt_act, actual_not_30_360, Hc.
Qed.

Lemma size_two_nonempty (points : gmap date R) :
  (2 <= size points)%nat -> points <> ∅.
Proof. intros H ->. rewrite map_size_empty in H. lia. Qed.




(** The instance and the composed function a build without spread yields. *)
Lemma build_base_only (points : gmap date R) (v : date) (c : string) :
  supported c -> points <> ∅ ->
  exists self self',
    __init__ points v c None = Ok self /\
    ois_tenors self = axis_of points v c /\
    ois_rates self = rates_of points /\
    build self = Ok (self', total_rate (curve_of points v c) None).
Proof.
  intros Hc Hp. eexists _, _.
  split; [apply (init_without_spread points v c None Hc eq_refl) |].
  split; [reflexivity |]. split; [reflexivity |].
  rewrite build_without_spread;
    [reflexivity | apply (axis_of_nonempty points v c Hp) | reflexivity].
Qed.




Lemma np_getitem_lookup (a : list R) (k : nat) (r : R) :
  a !! k = Some r -> np_getitem a (Z.of_nat k) = r.
Proof. intros H. rewrite np_getitem_nat. apply nth_lookup_Some, H. Qed.

(** The value of the interpolant from the two knots around [t], or from the
    first two left of all knots and the last two right of them. *)
Lemma interp1d_call_between (x y : list R) (i : nat) (ta tb ra rb t : R) :
  StronglySorted Rlt x ->
  x !! i = Some ta -> x !! S i = Some tb ->
  y !! i = Some ra -> y !! S i = Some rb ->
  ta < t <= tb \/ (i = 0%nat /\ t <= ta) \/ (S (S i) = length x /\ tb < t) ->
  interp1d_call (mk_interp1d x y) t
  = FReal (ra + (rb - ra) * (t - ta) / (tb - ta)).
Proof.
  intros Hx Ha Hb Hra Hrb Hcase.
  pose proof (lookup_lt_Some _ _ _ Hb) as Hlen.
  destruct (interp1d_call_segment x y Hx ltac:(lia) t)
    as (j & Hj & -> & Hfirst & Hlast & Hin).
  pose proof (np_getitem_lookup x i ta Ha) as Hxa.
  pose proof (np_getitem_lookup x (S i) tb Hb) as Hxb.
  assert (j = Z.of_nat (S i)) as ->.
  { destruct Hcase as [[Hl Hr] | [[-> Hl] | [Hn Hr]]].
    - assert (np_getitem x 0 <= ta) as H0.
      { rewrite <- Hxa. apply np_getitem_le; [exact Hx | lia | lia]. }
      assert (tb <= np_getitem x (Z.of_nat (length x) - 1)) as Hn.
      { rewrite <- Hxb. apply np_getitem_le; [exact Hx | lia | lia]. }
      destruct (Hin ltac:(lra)) as [Hjl Hjr].
      destruct (Z_lt_le_dec j (Z.of_nat (S i))) as [Hlt | Hge].
      + pose proof (np_getitem_le x j (Z.of_nat i) Hx ltac:(lia) ltac:(lia)).
        lra.
      + destruct (Z.eq_dec j (Z.of_nat (S i))) as [He | Hne]; [exact He |].
        pose proof (np_getitem_le x (Z.of_nat (S i)) (j - 1) Hx ltac:(lia)
                      ltac:(lia)).
        lra.
    - apply Hfirst. change (Z.of_nat 0) with 0%Z in Hxa. lra.
    - rewrite Hlast.
      + lia.
      + replace (Z.of_nat (length x) - 1)%Z with (Z.of_nat (S i)) by lia. lra.
  }
  replace (Z.of_nat (S i) - 1)%Z with (Z.of_nat i) by lia.
  rewrite Hxa, Hxb, (np_getitem_lookup y i ra Hra),
    (np_getitem_lookup y (S i) rb Hrb).
  reflexivity.
Qed.

(** X11: a curve built without spread from two or more valid dates under
    ACT/365 or ACT/360 is piecewise linear in the stored arrays: between two
    neighbouring knots it is the line through them, left of the first knot
    the line through the first two, and right of the last knot the line
    through the last two. *)
Theorem built_curve_piecewise_linear (points : gmap date R) (v : date)
    (c : string) :
  actual_convention c ->
  (forall d, is_Some (points !! d) -> valid_date d) ->
  (2 <= size points)%nat ->
  exists self self' f,
    __init__ points v c None = Ok self /\
    build self = Ok (self', f) /\
    forall (i : nat) (ta tb ra rb t : R),
      ois_tenors self !! i = Some ta -> ois_tenors self !! S i = Some tb ->
      ois_rates self !! i = Some ra -> ois_rates self !! S i = Some rb ->
      ta < t <= tb \/ (i = 0%nat /\ t <= ta) \/
        (S (S i) = size points /\ tb < t) ->
      f t = FReal (ra + (rb - ra) * (t - ta) / (tb - ta)).
Proof.
  intros Hc Hv Hsize.
  destruct (build_base_only points v c (actual_supported c Hc)
              (size_two_nonempty points Hsize))
    as (self & self' & Hinit & Hten & Hrat & Hbuild).
  eexists self, self', _. split; [exact Hinit |]. split; [exact Hbuild |].
  intros i ta tb ra rb t Ha Hb Hra Hrb Hcase.
  rewrite total_rate_without_spread. unfold curve_of.
  rewrite Hten in Ha, Hb. rewrite Hrat in Hra, Hrb.
  apply (interp1d_call_between _ _ i); try assumption.
  - apply axis_of_increasing; assumption.
  - rewrite axis_of_length. exact Hcase.
Qed.


(* ------------------------------------------------------------------ *)
(** ** More on [build] and [get_df] *)

Lemma init_ready_for_build (points : gmap date R) (v : date) (c : string)
    (cs : option (gmap date R)) (self : FundingCurveBuilder.t) :
  __init__ points v c cs = Ok self ->
  length (ois_tenors self) = size points /\
  match cs_tenors self, cs_rates self with
  | Some ct, Some cr => ct <> []
  | None, None => True
  | _, _ => False
  end.
Proof.
  intros Hinit.
  destruct (init_inv _ _ _ _ _ Hinit) as (_ & _ & _ & Ht & _ & _ & _ & Hcs).
  split.
  - rewrite (comprehension_length _ _ _ Ht). apply sorted_keys_length.
  - destruct (cs_tenors self) as [ct |], (cs_rates self) as [cr |];
      try contradiction; [| exact I].
    destruct Hcs as (m & _ & Hm & _ & Hct & _).
    intros ->. apply comprehension_length in Hct. simpl in Hct.
    symmetry in Hct. apply nil_length_inv in Hct.
    exact (sorted_keys_nonempty m Hm Hct).
Qed.

(** X13: for an instance the constructor returned, [build] raises exactly
    when the base mapping is empty; a spread mapping never makes it fail. *)
Theorem build_raises_iff_empty_base (points : gmap date R) (v : date)
    (c : string) (cs : option (gmap date R)) (self : FundingCurveBuilder.t) :
  __init__ points v c cs = Ok self ->
  ((exists e, build self = Raise e) <-> points = ∅) /\
  (points <> ∅ -> exists self' f, build self = Ok (self', f)).
Proof.
  intros Hinit.
  destruct (init_ready_for_build _ _ _ _ _ Hinit) as [Hlen Hcs].
  destruct (decide (points = ∅)) as [-> | Hp].
  - split; [| congruence]. split; [reflexivity |]. intros _.
    rewrite map_size_empty in Hlen. apply nil_length_inv in Hlen.
    unfold build. rewrite Hlen. eexists. reflexivity.
  - assert (ois_tenors self <> []) as Hne.
    { intros Hnil. rewrite Hnil in Hlen. simpl in Hlen. symmetry in Hlen.
      apply map_size_empty_iff in Hlen. contradiction. }
    assert (exists self' f, build self = Ok (self', f)) as (self' & f & Hb).
    { destruct (cs_tenors self) as [ct |] eqn:Hct,
        (cs_rates self) as [cr |] eqn:Hcr; try contradiction.
      - eexists _, _. apply (build_with_spread self ct cr Hne Hct Hcr Hcs).
      - eexists _, _. apply (build_without_spread self Hne Hct). }
    split; [| intros _; eauto]. rewrite Hb. split.
    + intros [e He]. discriminate.
    + contradiction.
Qed.

(** X14: [build] assigns the two interpolant attributes and leaves every
    other attribute as it was; built again, the instance it returned gives
    the same instance and the same composed function. *)
Theorem build_is_idempotent (self self' : FundingCurveBuilder.t)
    (f : R -> npfloat) :
  build self = Ok (self', f) ->
  ois_dates self' = ois_dates self /\
  ois_tenors self' = ois_tenors self /\
  ois_rates self' = ois_rates self /\
  cs_tenors self' = cs_tenors self /\
  cs_rates self' = cs_rates self /\
  ois_interp self' = Some (mk_interp1d (ois_tenors self) (ois_rates self)) /\
  build self' = Ok (self', f).
Proof.
  intros Hbuild. unfold build in Hbuild.
  destruct (interp1d_new (ois_tenors self) (ois_rates self))
    as [oi | e] eqn:Hoi; [| discriminate]. simpl in Hbuild.
  assert (oi = mk_interp1d (ois_tenors self) (ois_rates self)) as Hoi'.
  { unfold interp1d_new in Hoi. destruct (_ <? _)%Z in Hoi; [discriminate |].
    injection Hoi as <-. reflexivity. }
  destruct (cs_tenors self) as [ct |] eqn:Hct.
  - destruct (cs_rates self) as [cr |] eqn:Hcr; [| discriminate].
    destruct (interp1d_new ct cr) as [ci | e] eqn:Hci; [| discriminate].
    simpl in Hbuild. injection Hbuild as <- <-.
    cbn [ois_dates ois_tenors ois_rates cs_tenors cs_rates ois_interp].
    rewrite <- Hoi'. repeat (split; [reflexivity |]).
    unfold build.
    cbn [ois_dates ois_tenors ois_rates cs_tenors cs_rates cs_dates
         FundingCurveBuilder.valuation_date FundingCurveBuilder.dc].
    rewrite Hoi. cbn [mbind result_bind]. rewrite Hci. reflexivity.
  - simpl in Hbuild. injection Hbuild as <- <-.
    cbn [ois_dates ois_tenors ois_rates cs_tenors cs_rates ois_interp].
    rewrite <- Hoi'. repeat (split; [reflexivity |]).
    unfold build.
    cbn [ois_dates ois_tenors ois_rates cs_tenors cs_rates cs_dates
         FundingCurveBuilder.cs_interp
         FundingCurveBuilder.valuation_date FundingCurveBuilder.dc].
    rewrite Hoi. reflexivity.
Qed.

(** X15: [get_df] raises exactly when the convention of the service is
    unsupported, with the error of [year_fraction]; the constructor of the
    service has not checked it. *)
Theorem get_df_raises_iff_unsupported (f : R -> npfloat) (v d : date)
    (c : string) :
  ((exists e, DiscountFactorService.get_df
                (DiscountFactorService.__init__ f v c) d = Raise e)
   <-> ~ supported c) /\
  (~ supported c ->
   DiscountFactorService.get_df (DiscountFactorService.__init__ f v c) d
   = Raise (UnsupportedConvention c)).
Proof.
  assert (~ supported c ->
          DiscountFactorService.get_df (DiscountFactorService.__init__ f v c) d
          = Raise (UnsupportedConvention c)) as Hraise.
  { intros Hc. unfold DiscountFactorService.get_df.
    cbn [DiscountFactorService.valuation_date DiscountFactorService.dc].
    rewrite (year_fraction_unsupported v d c Hc). reflexivity. }
  split; [| exact Hraise]. split.
  - intros [e He] Hc. rewrite (get_df_unfold f v d c Hc) in He. discriminate.
  - intros Hc. eexists. apply Hraise, Hc.
Qed.


(* ------------------------------------------------------------------ *)
(** ** The properties above on a two-point curve *)

Lemma pair_valid (d0 d1 : date) (r0 r1 : R) :
  valid_date d0 -> valid_date d1 ->
  forall d, is_Some ((<[ d0 := r0 ]> {[ d1 := r1 ]} : gmap date R) !! d) ->
            valid_date d.
Proof.
  intros H0 H1 d Hd. apply pair_lookup_inv in Hd as [-> | ->]; assumption.
Qed.

Lemma pair_size (d0 d1 : date) (r0 r1 : R) :
  d0 <> d1 -> size (<[ d0 := r0 ]> {[ d1 := r1 ]} : gmap date R) = 2%nat.
Proof.
  intros Hne. rewrite map_size_insert_None, map_size_singleton;
    [reflexivity |].
  apply lookup_singleton_ne. congruence.
Qed.

Lemma init_stores_sorted_items_witness :
  let v := mkdate 2024 1 1 in
  let points : gmap date R :=
    <[ mkdate 2026 1 1 := 35 / 1000 ]> {[ mkdate 2025 1 1 := 3 / 100 ]} in
  exists self,
    __init__ points v "ACT/365" None = Ok self /\
    StronglySorted date_lt (ois_dates self) /\
    zip (ois_dates self) (ois_rates self) ≡ₚ map_to_list points.
Proof.
  intros v points.
  assert (supported "ACT/365") as Hc by (left; reflexivity).
  pose proof (init_without_spread points v "ACT/365" None Hc eq_refl) as Hinit.
  destruct (init_stores_sorted_items _ _ _ _ _ Hinit) as (Hs & Hz & _).
  eexists. split; [exact Hinit |]. split; [exact Hs | exact Hz].
Defined.



Lemma built_curve_piecewise_linear_witness :
  let v := mkdate 2024 1 1 in
  let points : gmap date R :=
    <[ mkdate 2025 1 1 := 3 / 100 ]> {[ mkdate 2026 1 1 := 35 / 1000 ]} in
  let ta := IZR 366 / 365 in
  let tb := IZR 731 / 365 in
  exists self self' f,
    __init__ points v "ACT/365" None = Ok self /\
    build self = Ok (self', f) /\
    f 3 = FReal (3 / 100 + (35 / 1000 - 3 / 100) * (3 - ta) / (tb - ta)).
Proof.
  intros v points ta tb.
  assert (supported "ACT/365") as Hc by (left; reflexivity).
  assert (date_lt (mkdate 2025 1 1) (mkdate 2026 1 1)) as Hlt
    by (left; reflexivity).
  destruct (built_curve_piecewise_linear points v "ACT/365")
    as (self & self' & f & Hinit & Hbuild & Hlin).
  - left. reflexivity.
  - apply pair_valid; apply valid_date_dec; reflexivity.
  - unfold points. rewrite pair_size by discriminate. lia.
  - exists self, self', f. split; [exact Hinit |]. split; [exact Hbuild |].
    destruct (init_ois_arrays _ _ _ _ _ Hc Hinit) as (_ & Hten & Hrat).
    assert (ois_tenors self = [ta; tb]) as Hx.
    { rewrite Hten. unfold axis_of, points.
      rewrite (sorted_keys_pair _ _ _ _ Hlt). reflexivity. }
    assert (ois_rates self = [3 / 100; 35 / 1000]) as Hy.
    { rewrite Hrat. unfold rates_of, points.
      rewrite (sorted_keys_pair _ _ _ _ Hlt). cbn [map].
      rewrite lookup_total_insert_eq.
      rewrite lookup_total_insert_ne by discriminate.
      rewrite lookup_total_singleton_eq. reflexivity. }
    apply (Hlin 0%nat ta tb).
    + rewrite Hx. reflexivity.
    + rewrite Hx. reflexivity.
    + rewrite Hy. reflexivity.
    + rewrite Hy. reflexivity.
    + right. right. split.
      * unfold points. rewrite pair_size by discriminate. reflexivity.
      * unfold tb. lra.
Defined.


Lemma build_raises_iff_empty_base_witness :
  let v := mkdate 2024 1 1 in
  let points : gmap date R := {[ mkdate 2025 1 1 := 3 / 100 ]} in
  exists self self' f,
    __init__ points v "ACT/365" None = Ok self /\
    build self = Ok (self', f).
Proof.
  intros v points.
  assert (supported "ACT/365") as Hc by (left; reflexivity).
  pose proof (init_without_spread points v "ACT/365" None Hc eq_refl) as Hinit.
  destruct (proj2 (build_raises_iff_empty_base _ _ _ _ _ Hinit))
    as (self' & f & Hbuild); [apply insert_non_empty |].
  eexists _, self', f. split; [exact Hinit | exact Hbuild].
Defined.

Lemma build_is_idempotent_witness :
  let v := mkdate 2024 1 1 in
  let points : gmap date R := {[ mkdate 2025 1 1 := 3 / 100 ]} in
  exists self self' f,
    __init__ points v "ACT/365" None = Ok self /\
    build self = Ok (self', f) /\
    build self' = Ok (self', f).
Proof.
  intros v points.
  assert (supported "ACT/365") as Hc by (left; reflexivity).
  destruct (single_point_build (mkdate 2025 1 1) (3 / 100) v "ACT/365" Hc)
    as (self & self' & Hinit & Hbuild).
  pose proof (build_is_idempotent _ _ _ Hbuild) as (_ & _ & _ & _ & _ & _ & H).
  eexists self, self', _. split; [exact Hinit |]. split; [exact Hbuild |].
  exact H.
Defined.

